(** * The chat store of supa-chat-flow (src/stores/chat.ts)

    A shallow embedding of the zustand store [useChatStore] and of the
    record types it manipulates (src/types/index.ts).

    The store's actions are asynchronous: they read and write the store with
    [get]/[set] and suspend on calls to the supabase client.  An action is
    embedded as a finite program over those two kinds of effect ([Prog]); the
    backend is an opaque collaborator that answers each request ([Env]). *)

From stdpp Require Import gmap strings list fin_maps.

Open Scope string_scope.
Open Scope list_scope.
Open Scope nat_scope.
Open Scope stdpp_scope.

(** ** Data model (src/types/index.ts) *)

Inductive UserStatus := online | away | offline.

Record User := mkUser {
  u_id : string;
  email : string;
  u_display_name : option string;
  u_avatar_url : option string;
  status : UserStatus;
  last_seen : option string;
  theme : string;
  notifications_enabled : bool;
  u_created_at : string;
  u_updated_at : string
}.

Record UserProfile := mkUserProfile {
  p_id : string;
  display_name : option string;
  avatar_url : option string
}.

Inductive ChatType := direct | group.

Inductive MessageType := text_message | image | file | voice.

(** The user embedded in a participant row by [fetchChats]:
    [users(id, display_name, avatar_url, status)]. *)
Record ParticipantUser := mkParticipantUser {
  pu_id : string;
  pu_display_name : option string;
  pu_avatar_url : option string;
  pu_status : UserStatus
}.

(** A row of [chat_participants].  The rows [fetchChats] embeds in a chat
    carry [user_id], [is_admin] and [users] only. *)
Record ChatParticipant := mkChatParticipant {
  cp_chat_id : option string;
  cp_user_id : string;
  is_admin : option bool;
  joined_at : option string;
  users : option ParticipantUser
}.

Record ReplyMessage := mkReplyMessage {
  rm_id : string;
  rm_text : option string;
  rm_sender : option UserProfile
}.

Record MessageReaction := mkMessageReaction {
  emoji : string;
  r_user_id : string;
  r_users : option UserProfile
}.

Record Message := mkMessage {
  m_id : string;
  m_chat_id : string;
  sender_id : string;
  text : option string;
  m_type : MessageType;
  attachments : option string;
  reply_to : option string;
  edited : bool;
  deleted : bool;
  m_created_at : string;
  m_updated_at : string;
  sender : option UserProfile;
  reply_message : option ReplyMessage;
  reactions : option (list MessageReaction)
}.

(** A chat as it sits in the store.  Rows returned by the backend carry the
    joined column [chat_participants]; [fetchChats] copies it to
    [participants] and keeps every other property (object spread). *)
Record Chat := mkChat {
  c_id : string;
  c_type : ChatType;
  name : option string;
  c_avatar_url : option string;
  created_by : string;
  c_created_at : string;
  c_updated_at : string;
  chat_participants : option (list ChatParticipant);
  participants : option (list ChatParticipant);
  last_message : option Message
}.

Record TypingIndicator := mkTypingIndicator {
  user_id : string;
  chat_id : string;
  user : option User
}.

(** ** The store state ([interface ChatState], data fields) *)

Record ChatState := mkChatState {
  chats : list Chat;
  activeChat : option Chat;
  messages : gmap string (list Message);
  typingUsers : list TypingIndicator;
  loading : bool;
  error : option string
}.

(** The initial state passed to [create]. *)
Definition initialState : ChatState :=
  {| chats := []; activeChat := None; messages := ∅; typingUsers := [];
     loading := false; error := None |}.

(** ** The supabase client, as the store uses it *)

(** What a query resolves to: [{ data, error }] with exactly one of the two
    set. *)
Inductive PgResult (A : Type) :=
| PgOk (data : A)
| PgErr (message : string).
Arguments PgOk {A} data.
Arguments PgErr {A} message.

(** [data] of a result, [null] on failure. *)
Definition pg_data {A} (r : PgResult A) : option A :=
  match r with PgOk d => Some d | PgErr _ => None end.

(** A row of the pre-check of [createDirectChat],
    [select('id, chat_participants!inner(user_id)')]: the id of a chat and
    the [user_id] of each of its participant rows. *)
Record ParticipantRef := mkParticipantRef { pr_user_id : string }.

Record DirectChatRow := mkDirectChatRow {
  dc_id : string;
  dc_chat_participants : list ParticipantRef
}.

(** The user returned by [supabase.auth.getUser()]. *)
Record AuthUser := mkAuthUser { au_id : string }.

(** Payload of the insert of [sendMessage]. *)
Record MessageInsert := mkMessageInsert {
  mi_chat_id : string;
  mi_sender_id : string;
  mi_text : string;
  mi_reply_to : option string
}.

(** Payload of the chat inserts of [createDirectChat] and
    [createGroupChat]. *)
Record ChatInsert := mkChatInsert {
  ci_type : ChatType;
  ci_name : option string;
  ci_created_by : string
}.

(** Payload rows of the participant inserts; [createDirectChat] leaves
    [is_admin] out. *)
Record ParticipantInsert := mkParticipantInsert {
  pi_chat_id : string;
  pi_user_id : string;
  pi_is_admin : option bool
}.

(** The requests the store sends to the backend, one constructor per call
    site shape. *)
Inductive Request :=
| AuthGetUser
| SelectChats
| SelectMessages (chatId : string)
| InsertMessage (row : MessageInsert)
| UpdateChatUpdatedAt (chatId : string) (updated_at : string)
| SelectDirectChats
| InsertChat (row : ChatInsert)
| InsertParticipants (rows : list ParticipantInsert)
| SelectMessageById (id : string).

Definition Response (r : Request) : Type :=
  match r with
  | AuthGetUser => option AuthUser
  | SelectChats => PgResult (list Chat)
  | SelectMessages _ => PgResult (list Message)
  | InsertMessage _ => PgResult unit
  | UpdateChatUpdatedAt _ _ => PgResult unit
  | SelectDirectChats => PgResult (list DirectChatRow)
  | InsertChat _ => PgResult Chat
  | InsertParticipants _ => PgResult unit
  | SelectMessageById _ => PgResult Message
  end.


(** Requests to the data service (everything but the identity lookup). *)
Definition is_data_call (r : Request) : bool :=
  match r with
  | AuthGetUser => false
  | _ => true
  end.

(** ** Asynchronous actions *)

(** An action is a finite tree: it ends with a result, updates the store
    ([set] with an updater function), reads the local clock
    ([new Date().toISOString()]) or suspends on a request and resumes with
    its response. *)
Inductive Prog (R : Type) : Type :=
| Ret (r : R)
| SetState (f : ChatState → ChatState) (k : Prog R)
| Now (k : string → Prog R)
| Await (req : Request) (k : Response req → Prog R).
Arguments Ret {R} r.
Arguments SetState {R} f k.
Arguments Now {R} k.
Arguments Await {R} req k.

Fixpoint bind {A B} (p : Prog A) (f : A → Prog B) : Prog B :=
  match p with
  | Ret a => f a
  | SetState g k => SetState g (bind k f)
  | Now k => Now (λ t, bind (k t) f)
  | Await req k => Await req (λ x, bind (k x) f)
  end.

Definition set_ (f : ChatState → ChatState) : Prog unit := SetState f (Ret tt).
Definition now_ : Prog string := Now Ret.
Definition await (req : Request) : Prog (Response req) := Await req Ret.

(** [Prog] is a monad; the actions below are written with stdpp's
    [x ← p; k] and [p;; k]. *)
#[global] Instance prog_ret : MRet Prog := @Ret.
#[global] Instance prog_bind : MBind Prog := λ A B f p, bind p f.

(** The backend and the clock: a response for every request, which may
    depend on the requests issued before it. *)
Record Env := mkEnv {
  respond : ∀ (history : list Request) (req : Request), Response req;
  clock : list Request → string
}.

Record Outcome (R : Type) := mkOutcome {
  result : R;
  final : ChatState;
  issued : list Request
}.
Arguments mkOutcome {R} result final issued.
Arguments result {R} o.
Arguments final {R} o.
Arguments issued {R} o.

(** Runs an action to completion, with nothing else interleaved: [history]
    are the requests sent before it started, [issued] those it sends. *)
Fixpoint run {R} (env : Env) (history : list Request) (p : Prog R)
    (s : ChatState) : Outcome R :=
  match p with
  | Ret r => mkOutcome r s []
  | SetState f k => run env history k (f s)
  | Now k => run env history (k (clock env history)) s
  | Await req k =>
      let o := run env (history ++ [req]) (k (respond env history req)) s in
      mkOutcome (result o) (final o) (req :: issued o)
  end.

(** Where an action stands when it first yields control. *)
Inductive Suspended (R : Type) :=
| Finished (r : R) (s : ChatState)
| Pending (req : Request) (k : Response req → Prog R) (s : ChatState).
Arguments Finished {R} r s.
Arguments Pending {R} req k s.

(** The synchronous prefix of an action: everything it does before its first
    [await]. *)
Fixpoint start {R} (env : Env) (history : list Request) (p : Prog R)
    (s : ChatState) : Suspended R :=
  match p with
  | Ret r => Finished r s
  | SetState f k => start env history k (f s)
  | Now k => start env history (k (clock env history)) s
  | Await req k => Pending req k s
  end.

(** Resuming a suspended action with the response to its pending request. *)
Definition resume {R} (env : Env) (history : list Request)
    (st : Suspended R) : Outcome R :=
  match st with
  | Finished r s => mkOutcome r s []
  | Pending req k s =>
      let o := run env (history ++ [req]) (k (respond env history req)) s in
      mkOutcome (result o) (final o) (req :: issued o)
  end.

(** ** State updates ([set] with a partial state merges it into the store) *)

Definition with_error (e : option string) (s : ChatState) : ChatState :=
  {| chats := chats s; activeChat := activeChat s; messages := messages s;
     typingUsers := typingUsers s; loading := loading s; error := e |}.

Definition with_loading (b : bool) (s : ChatState) : ChatState :=
  {| chats := chats s; activeChat := activeChat s; messages := messages s;
     typingUsers := typingUsers s; loading := b; error := error s |}.

Definition with_chats (cs : list Chat) (s : ChatState) : ChatState :=
  {| chats := cs; activeChat := activeChat s; messages := messages s;
     typingUsers := typingUsers s; loading := loading s; error := error s |}.

Definition with_activeChat (c : option Chat) (s : ChatState) : ChatState :=
  {| chats := chats s; activeChat := c; messages := messages s;
     typingUsers := typingUsers s; loading := loading s; error := error s |}.

Definition with_messages (ms : gmap string (list Message)) (s : ChatState)
    : ChatState :=
  {| chats := chats s; activeChat := activeChat s; messages := ms;
     typingUsers := typingUsers s; loading := loading s; error := error s |}.

Definition with_typingUsers (ts : list TypingIndicator) (s : ChatState)
    : ChatState :=
  {| chats := chats s; activeChat := activeChat s; messages := messages s;
     typingUsers := ts; loading := loading s; error := error s |}.

(** ** The actions of the store (src/stores/chat.ts) *)

Definition clearError : Prog unit := set_ (with_error None).

Definition setActiveChat (chat : option Chat) : Prog unit :=
  set_ (with_activeChat chat).

(** [{ ...chat, participants: chat.chat_participants }] *)
Definition transformChat (chat : Chat) : Chat :=
  {| c_id := c_id chat; c_type := c_type chat; name := name chat;
     c_avatar_url := c_avatar_url chat; created_by := created_by chat;
     c_created_at := c_created_at chat; c_updated_at := c_updated_at chat;
     chat_participants := chat_participants chat;
     participants := chat_participants chat;
     last_message := last_message chat |}.

Definition fetchChats : Prog unit :=
  set_ (λ s, with_error None (with_loading true s));;
  r ← await SelectChats;
  match r with
  | PgErr message => set_ (λ s, with_error (Some message) (with_loading false s))
  | PgOk chats =>
      let transformedChats := map transformChat chats in
      set_ (λ s, with_loading false (with_chats transformedChats s))
  end.

Definition fetchMessages (chatId : string) : Prog unit :=
  r ← await (SelectMessages chatId);
  match r with
  | PgErr message => set_ (with_error (Some message))
  | PgOk fetched =>
      set_ (λ s, with_messages (<[chatId := fetched]> (messages s)) s)
  end.

Definition sendMessage (chatId text : string) (replyTo : option string)
    : Prog unit :=
  u ← await AuthGetUser;
  match u with
  | None => mret tt
  | Some user =>
      r ← await (InsertMessage
                   {| mi_chat_id := chatId; mi_sender_id := au_id user;
                      mi_text := text; mi_reply_to := replyTo |});
      match r with
      | PgErr message => set_ (with_error (Some message))
      | PgOk _ =>
          t ← now_;
          _ ← await (UpdateChatUpdatedAt chatId t);
          mret tt
      end
  end.

(** The record [sendMessage] inserts for the user [user]. *)
Definition message_row (chatId text : string) (replyTo : option string)
    (user : AuthUser) : MessageInsert :=
  {| mi_chat_id := chatId; mi_sender_id := au_id user; mi_text := text;
     mi_reply_to := replyTo |}.

(** [{ chatId?: string; error?: string }] *)
Record CreateResult := mkCreateResult {
  chatId : option string;
  cr_error : option string
}.

Definition created (id : string) : CreateResult :=
  {| chatId := Some id; cr_error := None |}.
Definition failed (message : string) : CreateResult :=
  {| chatId := None; cr_error := Some message |}.

(** [chat.chat_participants.map(p => p.user_id)] *)
Definition participantIds (chat : DirectChatRow) : list string :=
  map pr_user_id (dc_chat_participants chat).

(** [Array.prototype.includes] on strings. *)
Definition includes (l : list string) (x : string) : bool :=
  bool_decide (x ∈ l).

(** The predicate of the [find] in [createDirectChat]. *)
Definition is_direct_chat_of (me other : string) (chat : DirectChatRow)
    : bool :=
  includes (participantIds chat) me && includes (participantIds chat) other
  && bool_decide (length (participantIds chat) = 2).

Definition createDirectChat (userId : string) : Prog CreateResult :=
  u ← await AuthGetUser;
  match u with
  | None => mret (failed "Not authenticated")
  | Some user =>
      r ← await SelectDirectChats;
      let existingChats := pg_data r in
      let directChat :=
        existingChats ≫= find (is_direct_chat_of (au_id user) userId) in
      match directChat with
      | Some chat => mret (created (dc_id chat))
      | None =>
          r ← await (InsertChat {| ci_type := direct; ci_name := None;
                                   ci_created_by := au_id user |});
          match r with
          | PgErr message => mret (failed message)
          | PgOk chat =>
              r ← await (InsertParticipants
                [ {| pi_chat_id := c_id chat; pi_user_id := au_id user;
                     pi_is_admin := None |};
                  {| pi_chat_id := c_id chat; pi_user_id := userId;
                     pi_is_admin := None |} ]);
              match r with
              | PgErr message => mret (failed message)
              | PgOk _ => mret (created (c_id chat))
              end
          end
      end
  end.

Definition createGroupChat (name : string) (userIds : list string)
    : Prog CreateResult :=
  u ← await AuthGetUser;
  match u with
  | None => mret (failed "Not authenticated")
  | Some user =>
      r ← await (InsertChat {| ci_type := group; ci_name := Some name;
                               ci_created_by := au_id user |});
      match r with
      | PgErr message => mret (failed message)
      | PgOk chat =>
          let participants :=
            {| pi_chat_id := c_id chat; pi_user_id := au_id user;
               pi_is_admin := Some true |}
            :: map (λ userId, {| pi_chat_id := c_id chat; pi_user_id := userId;
                                 pi_is_admin := Some false |}) userIds in
          r ← await (InsertParticipants participants);
          match r with
          | PgErr message => mret (failed message)
          | PgOk _ => mret (created (c_id chat))
          end
      end
  end.

(** *** Subscriptions *)

Inductive ChangeEvent := INSERT | ANY.

(** The part of a change payload the store reads: [payload.new.id]. *)
Record Payload := mkPayload { new_id : string }.

Record Subscription := mkSubscription {
  channel : string;
  event : ChangeEvent;
  schema : string;
  table : string;
  filter_ : option string;
  callback : Payload → Prog unit
}.

(** [messages] is a plain object: reading a key it does not own goes on to
    [Object.prototype], whose properties are these. *)
Definition object_prototype_keys : list string :=
  [ "constructor"; "hasOwnProperty"; "isPrototypeOf"; "propertyIsEnumerable";
    "toLocaleString"; "toString"; "valueOf"; "__proto__";
    "__defineGetter__"; "__defineSetter__"; "__lookupGetter__";
    "__lookupSetter__" ].

(** [state.messages[chatId] || []], as something to spread: the list the
    object owns under [chatId]; the empty list when the key is read as
    [undefined]; nothing when the key is inherited, its value a function
    (or, for [__proto__], an object), which is truthy and cannot be
    spread. *)
Definition messages_or_empty (ms : gmap string (list Message))
    (chatId : string) : option (list Message) :=
  match ms !! chatId with
  | Some l => Some l
  | None =>
      if bool_decide (chatId ∈ object_prototype_keys) then None else Some []
  end.

(** What the handler registered by [subscribeToChat(chatId)] does once its
    re-fetch has resolved.  When the spread throws, inside the updater, [set]
    is abandoned and the store stays as it is; the rejection of the
    handler's promise is seen by nobody. *)
Definition onMessageInsert_resume (chatId : string) (r : PgResult Message)
    : Prog unit :=
  match pg_data r with
  | Some message =>
      set_ (λ s, match messages_or_empty (messages s) chatId with
                 | Some l =>
                     with_messages (<[chatId := l ++ [message]]> (messages s)) s
                 | None => s
                 end)
  | None => mret tt
  end.

(** The handler registered by [subscribeToChat(chatId)]. *)
Definition onMessageInsert (chatId : string) (payload : Payload) : Prog unit :=
  r ← await (SelectMessageById (new_id payload));
  onMessageInsert_resume chatId r.

Definition subscribeToChat (chatId : string) : Subscription :=
  {| channel := "chat-" +:+ chatId; event := INSERT; schema := "public";
     table := "messages"; filter_ := Some ("chat_id=eq." +:+ chatId);
     callback := onMessageInsert chatId |}.

Definition subscribeToChats : Subscription :=
  {| channel := "chats"; event := ANY; schema := "public"; table := "chats";
     filter_ := None; callback := λ _, fetchChats |}.

(** *** Typing indicators *)

(** [t.chat_id === chatId && t.user_id === userId] *)
Definition typing_matches (chatId userId : string) (t : TypingIndicator)
    : Prop :=
  chat_id t = chatId ∧ user_id t = userId.

#[global] Instance typing_matches_dec chatId userId t :
  Decision (typing_matches chatId userId t) :=
  and_dec (decide (chat_id t = chatId)) (decide (user_id t = userId)).

Definition addTypingUser (chatId userId : string) : Prog unit :=
  set_ (λ s, with_typingUsers
               (filter (λ t, ¬ typing_matches chatId userId t) (typingUsers s)
                ++ [ {| user_id := userId; chat_id := chatId; user := None |} ])
               s).

Definition removeTypingUser (chatId userId : string) : Prog unit :=
  set_ (λ s, with_typingUsers
               (filter (λ t, ¬ typing_matches chatId userId t) (typingUsers s))
               s).

(** A call to one of the two typing actions. *)
Inductive TypingOp :=
| AddTyping (chatId userId : string)
| RemoveTyping (chatId userId : string).

Definition typing_action (op : TypingOp) : Prog unit :=
  match op with
  | AddTyping chatId userId => addTypingUser chatId userId
  | RemoveTyping chatId userId => removeTypingUser chatId userId
  end.

(** A sequence of calls, one after the other. *)
Fixpoint typing_calls (ops : list TypingOp) : Prog unit :=
  match ops with
  | [] => mret tt
  | op :: rest => typing_action op;; typing_calls rest
  end.

(** ** Specification-side notions *)

(** The identity of a typing indicator: its (chat id, user id) pair. *)
Definition typing_key (t : TypingIndicator) : string * string :=
  (chat_id t, user_id t).

(** The typing set a list of indicators stands for: the entry found for
    each pair. *)
Definition typing_set (l : list TypingIndicator)
    : gmap (string * string) TypingIndicator :=
  list_to_map ((λ t, (typing_key t, t)) <$> l).

(** The replay of the specification: add is insert-or-replace, remove is
    delete-if-present. *)
Definition spec_typing_step (m : gmap (string * string) TypingIndicator)
    (op : TypingOp) : gmap (string * string) TypingIndicator :=
  match op with
  | AddTyping c u => <[(c, u) := {| user_id := u; chat_id := c; user := None |}]> m
  | RemoveTyping c u => delete (c, u) m
  end.

Definition spec_typing_replay (ops : list TypingOp)
    (m : gmap (string * string) TypingIndicator)
    : gmap (string * string) TypingIndicator :=
  foldl spec_typing_step m ops.

(** At most one entry per (chat id, user id) pair. *)
Definition at_most_one_per_pair (l : list TypingIndicator) : Prop :=
  ∀ c u, length (filter (typing_matches c u) l) ≤ 1.

(** [sendMessage] resolves to [void] and never rejects: the shared [error]
    field is the one channel through which it reports a failure (its
    insert-failure branch writes it). *)
Definition reports_failure (o : Outcome unit) : Prop :=
  is_Some (error (final o)).

(** What an error state scoped per chat would be: some reading [errorOf] of
    the store gives, after a failed load of the messages of a chat, the
    failure message for that chat and what it gave before for every other
    chat. *)
Definition error_scoped_per_chat : Prop :=
  ∃ errorOf : ChatState → string → option string,
    ∀ env history s chatId message,
      respond env history (SelectMessages chatId) = PgErr message →
      errorOf (final (run env history (fetchMessages chatId) s)) chatId
        = Some message
      ∧ ∀ k, k ≠ chatId →
          errorOf (final (run env history (fetchMessages chatId) s)) k
            = errorOf s k.


(** No two messages of a list share an id. *)
Definition no_duplicate_ids (l : list Message) : Prop :=
  NoDup (map m_id l).

(** ** Sample data *)

Definition sample_message (id chat from body : string) : Message :=
  {| m_id := id; m_chat_id := chat; sender_id := from; text := Some body;
     m_type := text_message; attachments := None; reply_to := None;
     edited := false; deleted := false;
     m_created_at := "2024-05-01T10:00:00.000Z";
     m_updated_at := "2024-05-01T10:00:00.000Z";
     sender := Some {| p_id := from; display_name := None; avatar_url := None |};
     reply_message := None; reactions := None |}.

Definition sample_chat (id : string) (type : ChatType) (title : option string)
    (owner : string) (members : list string) : Chat :=
  {| c_id := id; c_type := type; name := title; c_avatar_url := None;
     created_by := owner;
     c_created_at := "2024-05-01T09:00:00.000Z";
     c_updated_at := "2024-05-01T09:00:00.000Z";
     chat_participants :=
       Some (map (λ u, {| cp_chat_id := None; cp_user_id := u;
                          is_admin := None; joined_at := None;
                          users := None |}) members);
     participants := None; last_message := None |}.

(** A backend whose answers do not depend on the history: [who] is the
    current user, [direct] the direct chats visible to the pre-check, and
    every other request is answered by [answer]. *)
Definition sample_direct (id : string) (members : list string)
    : DirectChatRow :=
  {| dc_id := id; dc_chat_participants := map mkParticipantRef members |}.

Definition sample_env (who : option string) (direct : list DirectChatRow)
    (answer : ∀ req, Response req) : Env :=
  {| respond := λ _ req,
       match req return Response req with
       | AuthGetUser => mkAuthUser <$> who
       | SelectDirectChats => PgOk direct
       | req => answer req
       end;
     clock := λ _, "2024-05-01T12:00:00.000Z" |}.

(** Every request fails with [message]. *)
Definition all_fail (message : string) (req : Request) : Response req :=
  match req with
  | AuthGetUser => None
  | SelectChats => PgErr message
  | SelectMessages _ => PgErr message
  | InsertMessage _ => PgErr message
  | UpdateChatUpdatedAt _ _ => PgErr message
  | SelectDirectChats => PgErr message
  | InsertChat _ => PgErr message
  | InsertParticipants _ => PgErr message
  | SelectMessageById _ => PgErr message
  end.

(** Every request succeeds: selects return the rows of [db_chats] and
    [db_messages], an inserted chat comes back with id [new_id]. *)
Definition all_succeed (db_chats : list Chat) (db_messages : list Message)
    (new_chat_id : string) (req : Request) : Response req :=
  match req with
  | AuthGetUser => None
  | SelectChats => PgOk db_chats
  | SelectMessages c =>
      PgOk (filter (λ m, m_chat_id m = c ∧ deleted m = false) db_messages)
  | InsertMessage _ => PgOk tt
  | UpdateChatUpdatedAt _ _ => PgOk tt
  | SelectDirectChats => PgOk []
  | InsertChat row =>
      PgOk (sample_chat new_chat_id (ci_type row) (ci_name row)
              (ci_created_by row) [])
  | InsertParticipants _ => PgOk tt
  | SelectMessageById id =>
      match find (λ m, bool_decide (m_id m = id)) db_messages with
      | Some m => PgOk m
      | None => PgErr "JSON object requested, multiple (or no) rows returned"
      end
  end.

(** ** Sessions: the actions of the store, one after the other *)

(** The requests of the two create actions, for the signed-in user [me] and
    the chat [chat] the chat insert returned. *)
Definition direct_chat_insert (me : string) : Request :=
  InsertChat {| ci_type := direct; ci_name := None; ci_created_by := me |}.

Definition direct_participants_insert (chat : Chat) (me userId : string)
    : Request :=
  InsertParticipants
    [ {| pi_chat_id := c_id chat; pi_user_id := me; pi_is_admin := None |};
      {| pi_chat_id := c_id chat; pi_user_id := userId;
         pi_is_admin := None |} ].

Definition group_chat_insert (name me : string) : Request :=
  InsertChat {| ci_type := group; ci_name := Some name; ci_created_by := me |}.

Definition group_participants_insert (chat : Chat) (me : string)
    (userIds : list string) : Request :=
  InsertParticipants
    ({| pi_chat_id := c_id chat; pi_user_id := me; pi_is_admin := Some true |}
     :: map (λ userId, {| pi_chat_id := c_id chat; pi_user_id := userId;
                          pi_is_admin := Some false |}) userIds).

(** Requests that change the data of the backend. *)
Definition is_write (r : Request) : bool :=
  match r with
  | InsertMessage _ | UpdateChatUpdatedAt _ _ | InsertChat _
  | InsertParticipants _ => true
  | _ => false
  end.

(** A call of an action of the store, or the delivery of a change event to
    the handler of a subscription. *)
Inductive Action :=
| DoClearError
| DoSetActiveChat (chat : option Chat)
| DoFetchChats
| DoFetchMessages (chatId : string)
| DoSendMessage (chatId text : string) (replyTo : option string)
| DoCreateDirectChat (userId : string)
| DoCreateGroupChat (name : string) (userIds : list string)
| OnChatEvent (chatId : string) (payload : Payload)
| OnChatsEvent (payload : Payload)
| DoTyping (op : TypingOp).

(** The action run for its effect on the store; the caller drops what the
    create actions return. *)
Definition perform (a : Action) : Prog unit :=
  match a with
  | DoClearError => clearError
  | DoSetActiveChat chat => setActiveChat chat
  | DoFetchChats => fetchChats
  | DoFetchMessages chatId => fetchMessages chatId
  | DoSendMessage chatId text replyTo => sendMessage chatId text replyTo
  | DoCreateDirectChat userId => _ ← createDirectChat userId; mret tt
  | DoCreateGroupChat name userIds => _ ← createGroupChat name userIds; mret tt
  | OnChatEvent chatId payload => callback (subscribeToChat chatId) payload
  | OnChatsEvent payload => callback subscribeToChats payload
  | DoTyping op => typing_action op
  end.

(** A session: each action completes before the next one starts. *)
Fixpoint session (acts : list Action) : Prog unit :=
  match acts with
  | [] => mret tt
  | a :: rest => perform a;; session rest
  end.

(** The handlers of [subscribeToChat(chatId)] started by several events
    resume as their re-fetches resolve, one at a time (each runs from its
    [await] to its end without yielding): [answers] are the resolved
    re-fetches, in the order of their resolution. *)
Fixpoint resolutions (chatId : string) (answers : list (PgResult Message))
    : Prog unit :=
  match answers with
  | [] => mret tt
  | r :: rest => onMessageInsert_resume chatId r;; resolutions chatId rest
  end.

(** A backend whose answers do not depend on the history: [who] is the
    current user and every other request is answered by [answer]. *)
Definition sample_backend (who : option string)
    (answer : ∀ req, Response req) : Env :=
  {| respond := λ _ req,
       match req return Response req with
       | AuthGetUser => mkAuthUser <$> who
       | req => answer req
       end;
     clock := λ _, "2024-05-01T12:00:00.000Z" |}.

(** [base], but for the requests picked by [which], which fail with
    [message]. *)
Definition fail_only (which : Request → bool) (message : string)
    (base : ∀ req, Response req) (req : Request) : Response req :=
  if which req then all_fail message req else base req.

Definition is_participants_insert (r : Request) : bool :=
  match r with InsertParticipants _ => true | _ => false end.

Definition is_timestamp_update (r : Request) : bool :=
  match r with UpdateChatUpdatedAt _ _ => true | _ => false end.

Definition is_direct_listing (r : Request) : bool :=
  match r with SelectDirectChats => true | _ => false end.

(** Case analysis on membership in a list of requests written out in full;
    the cases where the two requests differ in shape are closed. *)
Ltac member_cases H :=
  simpl in H;
  repeat match type of H with
         | _ ∈ [] => exfalso; exact (proj1 (elem_of_nil _) H)
         | _ ∈ _ :: _ =>
             apply elem_of_cons in H as [H | H]; [try discriminate H |]
         end.

(** Closes the three facts about an outcome written out in full. *)
Ltac outcome_shape :=
  simpl; repeat split; try done; try (by eexists); try (intros [? [=]]).

(** * Properties *)

(** ** The semantics of actions *)

(** Running [p] and then its continuation: the continuation starts in the
    state [p] left, after the requests [p] issued. *)
Lemma run_bind {A B} env (p : Prog A) (f : A → Prog B) history s :
  run env history (bind p f) s =
    let o := run env history p s in
    let o' := run env (history ++ issued o) (f (result o)) (final o) in
    mkOutcome (result o') (final o') (issued o ++ issued o').
Proof.
  revert history s.
  induction p as [a | g k IH | k IH | req k IH]; intros history s; simpl.
  - rewrite app_nil_r. by destruct (run env history (f a) s).
  - apply IH.
  - apply IH.
  - rewrite IH. simpl. by rewrite <- app_assoc.
Qed.

(** A run is its synchronous prefix followed by the rest. *)
Lemma run_start_resume {R} env (p : Prog R) history s :
  run env history p s = resume env history (start env history p s).
Proof.
  revert s. induction p as [a | g k IH | k IH | req k IH]; intros s; simpl;
    auto.
Qed.

(** Outcomes are equal when their three components are. *)
Lemma outcome_eq {R} (o : Outcome R) r s l :
  result o = r → final o = s → issued o = l → o = mkOutcome r s l.
Proof. destruct o; simpl; congruence. Qed.

(** ** [fetchChats] *)

Section FetchChats.
Variables (env : Env) (history : list Request) (s : ChatState).

Lemma fetchChats_run :
  run env history fetchChats s =
    match respond env history SelectChats with
    | PgErr message =>
        mkOutcome tt (with_error (Some message)
                        (with_loading false
                           (with_error None (with_loading true s))))
                  [SelectChats]
    | PgOk rows =>
        mkOutcome tt (with_loading false
                        (with_chats (map transformChat rows)
                           (with_error None (with_loading true s))))
                  [SelectChats]
    end.
Proof.
  unfold fetchChats. simpl.
  destruct (respond env history SelectChats); reflexivity.
Qed.

(** C4: when the fetch of [fetchChats] fails, the chat collection after
    the call is the one before it, and the [error] field holds the failure
    message (the rest of the store but [loading] is untouched too). *)
Theorem fetchChats_failure message :
  respond env history SelectChats = PgErr message →
  let s' := final (run env history fetchChats s) in
  chats s' = chats s
  ∧ error s' = Some message
  ∧ loading s' = false
  ∧ activeChat s' = activeChat s
  ∧ messages s' = messages s
  ∧ typingUsers s' = typingUsers s.
Proof.
  intros Hfail. rewrite fetchChats_run, Hfail. simpl. repeat split.
Qed.

(** C10: [fetchChats] sets [loading] and clears [error] before its fetch
    is sent: when it first suspends, on its [SelectChats] request, the
    store already has [loading = true] and [error = null], whatever the
    error was and whatever the backend answers later; the error at the end
    of the call is the failure of this fetch or none, and owes nothing to
    the earlier one. *)
Theorem fetchChats_clears_error_first :
  (∃ k s1, start env history fetchChats s = Pending SelectChats k s1
     ∧ loading s1 = true
     ∧ error s1 = None
     ∧ chats s1 = chats s
     ∧ messages s1 = messages s
     ∧ typingUsers s1 = typingUsers s
     ∧ activeChat s1 = activeChat s)
  ∧ error (final (run env history fetchChats s)) =
      match respond env history SelectChats with
      | PgErr message => Some message
      | PgOk _ => None
      end.
Proof.
  split.
  - eexists _, _. split; [reflexivity |]. repeat split.
  - rewrite fetchChats_run.
    destruct (respond env history SelectChats); reflexivity.
Qed.
End FetchChats.

(** A store with one chat and an error left by an earlier action. *)
Lemma fetchChats_failure_witness :
  let env := sample_env (Some "u1") [] (all_fail "network down") in
  let s := with_error (Some "stale")
             (with_chats [sample_chat "c1" direct None "u1" ["u1"; "u2"]]
                initialState) in
  let s' := final (run env [] fetchChats s) in
  chats s' = chats s ∧ error s' = Some "network down".
Proof.
  intros env s s'.
  pose proof (fetchChats_failure env [] s "network down" eq_refl) as H.
  split; [apply H | apply H].
Defined.

(** ** [fetchMessages] *)

Section FetchMessages.
Variables (env : Env) (history : list Request) (s : ChatState).
Variable chatId : string.

Lemma fetchMessages_run :
  run env history (fetchMessages chatId) s =
    match respond env history (SelectMessages chatId) with
    | PgErr message =>
        mkOutcome tt (with_error (Some message) s) [SelectMessages chatId]
    | PgOk fetched =>
        mkOutcome tt (with_messages (<[chatId := fetched]> (messages s)) s)
                  [SelectMessages chatId]
    end.
Proof.
  unfold fetchMessages. simpl.
  destruct (respond env history (SelectMessages chatId)); reflexivity.
Qed.

(** C6: a successful [fetchMessages(chatId)] stores the fetched list
    under [chatId], in place of whatever was there, and leaves the list of
    every other chat, and every other field of the store, as it was. *)
Theorem fetchMessages_success fetched :
  respond env history (SelectMessages chatId) = PgOk fetched →
  let s' := final (run env history (fetchMessages chatId) s) in
  messages s' !! chatId = Some fetched
  ∧ (∀ k, k ≠ chatId → messages s' !! k = messages s !! k)
  ∧ chats s' = chats s
  ∧ typingUsers s' = typingUsers s
  ∧ error s' = error s.
Proof.
  intros Hok. rewrite fetchMessages_run, Hok. simpl.
  split; [apply lookup_insert_eq |].
  split; [| done].
  intros k Hk. by apply lookup_insert_ne.
Qed.

(** C5, as the store has it: a failed [fetchMessages(chatId)] writes the
    failure message to the one [error] field of the store, over whatever
    it held, and changes nothing else; the state it leaves does not record
    which chat the failure was for. *)
Theorem fetchMessages_failure message :
  respond env history (SelectMessages chatId) = PgErr message →
  final (run env history (fetchMessages chatId) s)
    = with_error (Some message) s
  ∧ ∀ env' history' other,
      respond env' history' (SelectMessages other) = PgErr message →
      final (run env' history' (fetchMessages other) s)
        = final (run env history (fetchMessages chatId) s).
Proof.
  intros Hfail. split.
  - by rewrite fetchMessages_run, Hfail.
  - intros env' history' other Hother.
    rewrite fetchMessages_run, Hfail.
    unfold fetchMessages. simpl. by rewrite Hother.
Qed.
End FetchMessages.

(** Loading the history of c1 into a store that holds one message of c2. *)
Lemma fetchMessages_success_witness :
  let db := [sample_message "m1" "c1" "u1" "hi";
             sample_message "m2" "c2" "u2" "yo";
             sample_message "m3" "c1" "u2" "hello"] in
  let env := sample_env (Some "u1") [] (all_succeed [] db "c9") in
  let s := with_messages {[ "c1" := [sample_message "m0" "c1" "u1" "old"];
                            "c2" := [sample_message "m2" "c2" "u2" "yo"] ]}
             initialState in
  let s' := final (run env [] (fetchMessages "c1") s) in
  messages s' !! "c1" = Some [sample_message "m1" "c1" "u1" "hi";
                              sample_message "m3" "c1" "u2" "hello"]
  ∧ messages s' !! "c2" = messages s !! "c2".
Proof.
  intros db env s s'.
  pose proof (fetchMessages_success env [] s "c1" _ eq_refl) as (H1 & H2 & _).
  split; [exact H1 | by apply H2].
Defined.

Lemma fetchMessages_failure_witness :
  let env := sample_env (Some "u1") [] (all_fail "timeout") in
  let s := with_error (Some "chat list unavailable") initialState in
  final (run env [] (fetchMessages "c1") s) = with_error (Some "timeout") s.
Proof.
  intros env s.
  exact (proj1 (fetchMessages_failure env [] s "c1" "timeout" eq_refl)).
Defined.

(** C5, refuted as stated: from one store, a failed load for c1 and a failed
    load for c2 leave the very same state, whose only trace of the failure
    is the shared [error] field (here overwriting the error of an earlier
    action); so no reading of the store is an error state scoped per
    chat. *)
Lemma fetchMessages_error_not_per_chat :
  let env := sample_env (Some "u1") [] (all_fail "timeout") in
  let s := with_error (Some "chat list unavailable") initialState in
  final (run env [] (fetchMessages "c1") s)
    = final (run env [] (fetchMessages "c2") s)
  ∧ error (final (run env [] (fetchMessages "c1") s)) = Some "timeout"
  ∧ ¬ error_scoped_per_chat.
Proof.
  split; [reflexivity |]. split; [reflexivity |].
  intros [errorOf Hscoped].
  pose (e1 := sample_env (Some "u1") [] (all_fail "first")).
  pose (e2 := sample_env (Some "u1") [] (all_fail "second")).
  destruct (Hscoped e1 [] initialState "c1" "first" eq_refl) as [H1 _].
  destruct (Hscoped e2 [] (with_error (Some "first") initialState)
              "c2" "second" eq_refl) as [_ H2].
  destruct (Hscoped e2 [] initialState "c1" "second" eq_refl) as [H3 _].
  specialize (H2 "c1"). 
  assert (Hne : "c1" ≠ "c2") by done.
  specialize (H2 Hne).
  change (final (run e1 [] (fetchMessages "c1") initialState))
    with (with_error (Some "first") initialState) in H1.
  change (final (run e2 [] (fetchMessages "c2")
                   (with_error (Some "first") initialState)))
    with (with_error (Some "second") initialState) in H2.
  change (final (run e2 [] (fetchMessages "c1") initialState))
    with (with_error (Some "second") initialState) in H3.
  congruence.
Qed.

(** ** [sendMessage] *)

Section SendMessage.
Variables (env : Env) (history : list Request) (s : ChatState).
Variables (chatId text : string) (replyTo : option string).

Abbreviation row := (message_row chatId text replyTo).

(** The three ways a call can go. *)
Lemma sendMessage_run :
  run env history (sendMessage chatId text replyTo) s =
    match respond env history AuthGetUser with
    | None => mkOutcome tt s [AuthGetUser]
    | Some user =>
        match respond env (history ++ [AuthGetUser])
                (InsertMessage (row user)) with
        | PgErr message =>
            mkOutcome tt (with_error (Some message) s)
                      [AuthGetUser; InsertMessage (row user)]
        | PgOk _ =>
            mkOutcome tt s
              [AuthGetUser; InsertMessage (row user);
               UpdateChatUpdatedAt chatId
                 (clock env ((history ++ [AuthGetUser])
                             ++ [InsertMessage (row user)]))]
        end
    end.
Proof.
  unfold sendMessage. simpl.
  destruct (respond env history AuthGetUser) as [user |]; simpl; [| done].
  fold (message_row chatId text replyTo user).
  destruct (respond env (history ++ [AuthGetUser])
              (InsertMessage (row user))); reflexivity.
Qed.

(** C2, as the store has it: without an authenticated user [sendMessage]
    returns after the identity lookup, its only request: no message
    insert, no timestamp update; it reports nothing: the store, its
    [error] field included, is left as it was. *)
Theorem sendMessage_unauthenticated :
  respond env history AuthGetUser = None →
  let o := run env history (sendMessage chatId text replyTo) s in
  o = mkOutcome tt s [AuthGetUser]
  ∧ filter is_data_call (issued o) = []
  ∧ error (final o) = error s.
Proof.
  intros Hnone. rewrite sendMessage_run, Hnone. done.
Qed.

(** C9: when the insert of [sendMessage] fails, the call writes the
    failure message to the [error] field and ends there, the timestamp
    update not sent; and a call that does send the timestamp update has
    sent its insert before and got a success for it. *)
Theorem sendMessage_insert_failure :
  let o := run env history (sendMessage chatId text replyTo) s in
  (∀ user message,
     respond env history AuthGetUser = Some user →
     respond env (history ++ [AuthGetUser]) (InsertMessage (row user))
       = PgErr message →
     o = mkOutcome tt (with_error (Some message) s)
           [AuthGetUser; InsertMessage (row user)]
     ∧ error (final o) = Some message
     ∧ ∀ c t, UpdateChatUpdatedAt c t ∉ issued o)
  ∧ (∀ c t, UpdateChatUpdatedAt c t ∈ issued o →
       ∃ user,
         respond env history AuthGetUser = Some user
         ∧ respond env (history ++ [AuthGetUser]) (InsertMessage (row user))
             = PgOk tt
         ∧ issued o = [AuthGetUser; InsertMessage (row user);
                       UpdateChatUpdatedAt c t]).
Proof.
  intros o. subst o. rewrite sendMessage_run. split.
  - intros user message Hauth Hfail. rewrite Hauth, Hfail. simpl.
    split; [done |]. split; [done |].
    intros c t Hin. member_cases Hin.
  - intros c t Hin.
    destruct (respond env history AuthGetUser) as [user |];
      [| member_cases Hin].
    exists user. split; [done |].
    destruct (respond env (history ++ [AuthGetUser])
                (InsertMessage (row user))) as [[] | message];
      simpl in *; [| member_cases Hin].
    split; [done |].
    member_cases Hin. by rewrite Hin.
Qed.
End SendMessage.

Lemma sendMessage_unauthenticated_witness :
  let env := sample_env None [] (all_succeed [] [] "c9") in
  run env [] (sendMessage "c1" "hello" None) initialState
    = mkOutcome tt initialState [AuthGetUser].
Proof.
  intros env.
  exact (proj1 (sendMessage_unauthenticated env [] initialState
                  "c1" "hello" None eq_refl)).
Defined.

(** C2, refuted as stated: the scenario of the specification,
    [sendMessage("c1", "hello", undefined)] with nobody signed in, reports
    no failure; it leaves the store exactly as a fully successful send by a
    signed-in user does. *)
Lemma sendMessage_unauthenticated_silent :
  let anonymous := sample_env None [] (all_succeed [] [] "c9") in
  let signed_in := sample_env (Some "u1") [] (all_succeed [] [] "c9") in
  ¬ reports_failure (run anonymous [] (sendMessage "c1" "hello" None)
                       initialState)
  ∧ final (run anonymous [] (sendMessage "c1" "hello" None) initialState)
      = final (run signed_in [] (sendMessage "c1" "hello" None) initialState)
  ∧ result (run anonymous [] (sendMessage "c1" "hello" None) initialState)
      = result (run signed_in [] (sendMessage "c1" "hello" None) initialState).
Proof.
  split; [| split; reflexivity].
  unfold reports_failure. simpl. by intros [? ?].
Qed.

Lemma sendMessage_insert_failure_witness :
  let env := sample_env (Some "u1") [] (all_fail "row violates policy") in
  let o := run env [] (sendMessage "c1" "hello" None) initialState in
  error (final o) = Some "row violates policy"
  ∧ issued o = [AuthGetUser;
                InsertMessage {| mi_chat_id := "c1"; mi_sender_id := "u1";
                                 mi_text := "hello"; mi_reply_to := None |}].
Proof.
  intros env o.
  pose proof (proj1 (sendMessage_insert_failure env [] initialState
                       "c1" "hello" None)
                (mkAuthUser "u1") "row violates policy" eq_refl eq_refl)
    as (Ho & He & _).
  split; [exact He |].
  change o with (run env [] (sendMessage "c1" "hello" None) initialState).
  by rewrite Ho.
Defined.

(** ** [createDirectChat] *)


Lemma is_direct_chat_of_spec me other chat :
  is_direct_chat_of me other chat = true ↔
    me ∈ participantIds chat ∧ other ∈ participantIds chat
    ∧ length (participantIds chat) = 2.
Proof.
  unfold is_direct_chat_of, includes.
  rewrite !andb_true_iff, !bool_decide_eq_true. tauto.
Qed.


Section CreateDirectChat.
Variables (env : Env) (history : list Request) (s : ChatState).
Variables (me userId : string) (existing : list DirectChatRow).
Hypothesis Hauth : respond env history AuthGetUser = Some (mkAuthUser me).
Hypothesis Hlist :
  respond env (history ++ [AuthGetUser]) SelectDirectChats = PgOk existing.

(** When the pre-check finds a chat, the call ends with its id. *)
Lemma createDirectChat_found chat :
  find (is_direct_chat_of me userId) existing = Some chat →
  run env history (createDirectChat userId) s
    = mkOutcome (created (dc_id chat)) s [AuthGetUser; SelectDirectChats].
Proof.
  intros Hfind. unfold createDirectChat. simpl.
  rewrite Hauth. simpl. rewrite Hlist. simpl. by rewrite Hfind.
Qed.
End CreateDirectChat.

(** [find] returns the element that passes the test with none before it
    that does. *)
Lemma find_first_split {A} (f : A → bool) (l : list A) x :
  x ∈ l → f x = true →
  ∃ before y after,
    l = before ++ y :: after
    ∧ (∀ z, z ∈ before → f z = false)
    ∧ f y = true
    ∧ find f l = Some y.
Proof.
  induction l as [| a l IH]; intros Hin Hx.
  - by apply elem_of_nil in Hin.
  - simpl. destruct (f a) eqn:Ha.
    + exists [], a, l. repeat split; [| done].
      intros z Hz. by apply elem_of_nil in Hz.
    + apply elem_of_cons in Hin as [-> | Hin]; [congruence |].
      destruct (IH Hin Hx) as (before & y & after & -> & Hbefore & Hy & Hfind).
      exists (a :: before), y, after. repeat split; [| done | done].
      intros z Hz. apply elem_of_cons in Hz as [-> | Hz]; [done |].
      by apply Hbefore.
Qed.




(** ** [createGroupChat] *)

Section CreateGroupChat.
Variables (env : Env) (history : list Request) (s : ChatState).
Variables (name : string) (userIds : list string).

(** C7: a [createGroupChat(name, userIds)] by the signed-in user [u1]
    whose two inserts succeed sends, in this order, the identity lookup,
    one chat insert (type group, the given name, created by [u1]) and one
    participant insert whose rows are [u1] as admin followed by every id
    of [userIds], in order, as non-admin, all for the chat the first
    insert returned; it returns that chat's id and leaves the store as it
    was. *)
Theorem createGroupChat_success (u1 : string) (chat : Chat) :
  respond env history AuthGetUser = Some (mkAuthUser u1) →
  respond env (history ++ [AuthGetUser])
    (InsertChat {| ci_type := group; ci_name := Some name;
                   ci_created_by := u1 |}) = PgOk chat →
  respond env
    ((history ++ [AuthGetUser])
     ++ [InsertChat {| ci_type := group; ci_name := Some name;
                       ci_created_by := u1 |}])
    (InsertParticipants
       ({| pi_chat_id := c_id chat; pi_user_id := u1;
           pi_is_admin := Some true |}
        :: map (λ u, {| pi_chat_id := c_id chat; pi_user_id := u;
                        pi_is_admin := Some false |}) userIds)) = PgOk tt →
  run env history (createGroupChat name userIds) s =
    mkOutcome (created (c_id chat)) s
      [ AuthGetUser;
        InsertChat {| ci_type := group; ci_name := Some name;
                      ci_created_by := u1 |};
        InsertParticipants
          ({| pi_chat_id := c_id chat; pi_user_id := u1;
              pi_is_admin := Some true |}
           :: map (λ u, {| pi_chat_id := c_id chat; pi_user_id := u;
                           pi_is_admin := Some false |}) userIds) ].
Proof.
  intros Hauth Hchat Hparts. unfold createGroupChat. simpl.
  rewrite Hauth. simpl. rewrite Hchat. simpl. by rewrite Hparts.
Qed.
End CreateGroupChat.

(** The scenario of the specification: u1 creates the group Team with u2
    and u3. *)
Lemma createGroupChat_success_witness :
  let env := sample_env (Some "u1") [] (all_succeed [] [] "g1") in
  run env [] (createGroupChat "Team" ["u2"; "u3"]) initialState =
    mkOutcome (created "g1") initialState
      [ AuthGetUser;
        InsertChat {| ci_type := group; ci_name := Some "Team";
                      ci_created_by := "u1" |};
        InsertParticipants
          [ {| pi_chat_id := "g1"; pi_user_id := "u1";
               pi_is_admin := Some true |};
            {| pi_chat_id := "g1"; pi_user_id := "u2";
               pi_is_admin := Some false |};
            {| pi_chat_id := "g1"; pi_user_id := "u3";
               pi_is_admin := Some false |} ] ].
Proof.
  intros env.
  exact (createGroupChat_success env [] initialState "Team" ["u2"; "u3"]
           "u1" (sample_chat "g1" group (Some "Team") "u1" [])
           eq_refl eq_refl eq_refl).
Defined.

(** ** The handler of [subscribeToChat] *)

Section OnMessageInsert.
Variables (env : Env) (history : list Request) (s : ChatState).
Variables (chatId : string) (payload : Payload).

(** The handler from the resolution of its re-fetch on. *)
Lemma onMessageInsert_resume_run (r : PgResult Message) :
  run env history (onMessageInsert_resume chatId r) s =
    mkOutcome tt
      match pg_data r with
      | Some message =>
          match messages_or_empty (messages s) chatId with
          | Some l =>
              with_messages (<[chatId := l ++ [message]]> (messages s)) s
          | None => s
          end
      | None => s
      end
      [].
Proof. unfold onMessageInsert_resume. by destruct (pg_data r). Qed.

(** One insert event, delivered to the handler of [subscribeToChat]. *)
Lemma onMessageInsert_run :
  run env history (onMessageInsert chatId payload) s =
    mkOutcome tt
      match pg_data (respond env history (SelectMessageById (new_id payload)))
      with
      | Some message =>
          match messages_or_empty (messages s) chatId with
          | Some l =>
              with_messages (<[chatId := l ++ [message]]> (messages s)) s
          | None => s
          end
      | None => s
      end
      [SelectMessageById (new_id payload)].
Proof.
  unfold onMessageInsert, onMessageInsert_resume. simpl.
  by destruct (pg_data (respond env history
                          (SelectMessageById (new_id payload)))).
Qed.

(** C1, as the store has it: on an insert event the handler fetches the
    row of the new message and, when it gets one, puts it at the end of
    the list of its chat, whether or not a message with that id is in the
    list already; a chat that has no list yet, and whose id is not the name
    of a property plain objects inherit, gets the list of that one message;
    the lists of the other chats stay as they are, and without a row the
    store is unchanged. *)
Theorem onMessageInsert_appends :
  let o := run env history (callback (subscribeToChat chatId) payload) s in
  issued o = [SelectMessageById (new_id payload)]
  ∧ match respond env history (SelectMessageById (new_id payload)) with
    | PgOk message =>
        (∀ l, messages s !! chatId = Some l →
              messages (final o) !! chatId = Some (l ++ [message]))
        ∧ (messages s !! chatId = None →
           chatId ∉ object_prototype_keys →
           messages (final o) !! chatId = Some [message])
        ∧ (∀ k, k ≠ chatId → messages (final o) !! k = messages s !! k)
    | PgErr _ => final o = s
    end.
Proof.
  intros o. subst o.
  change (callback (subscribeToChat chatId) payload)
    with (onMessageInsert chatId payload).
  rewrite onMessageInsert_run. split; [done |].
  destruct (respond env history (SelectMessageById (new_id payload)))
    as [message | ?]; simpl; [| done].
  unfold messages_or_empty. split; [| split].
  - intros l Hl. rewrite Hl. simpl. apply lookup_insert_eq.
  - intros Hnone Hkey. rewrite Hnone.
    rewrite bool_decide_eq_false_2 by done. simpl. apply lookup_insert_eq.
  - intros k Hk.
    destruct (messages s !! chatId) as [l |]; simpl.
    + by apply lookup_insert_ne.
    + destruct (bool_decide (chatId ∈ object_prototype_keys)); simpl;
        [done | by apply lookup_insert_ne].
Qed.
End OnMessageInsert.

(** An event for c1, which has no list yet, then one more; c2 is left
    alone. *)
Lemma onMessageInsert_appends_witness :
  let m1 := sample_message "m1" "c1" "u2" "hi" in
  let m2 := sample_message "m2" "c1" "u1" "ho" in
  let env := sample_env (Some "u1") [] (all_succeed [] [m1; m2] "c9") in
  let s := with_messages {[ "c2" := [sample_message "m7" "c2" "u3" "yo"] ]}
             initialState in
  let o := run env [] (callback (subscribeToChat "c1") (mkPayload "m1")) s in
  let o' := run env [SelectMessageById "m1"]
              (callback (subscribeToChat "c1") (mkPayload "m2")) (final o) in
  messages (final o) !! "c1" = Some [m1]
  ∧ messages (final o') !! "c1" = Some [m1; m2]
  ∧ messages (final o) !! "c2" = messages s !! "c2".
Proof.
  intros m1 m2 env s o o'.
  pose proof (onMessageInsert_appends env [] s "c1" (mkPayload "m1"))
    as (_ & _ & Hnew & Hothers).
  pose proof (onMessageInsert_appends env [SelectMessageById "m1"] (final o)
                "c1" (mkPayload "m2")) as (_ & Hold & _ & _).
  split; [| split].
  - apply Hnew; [reflexivity |].
    intros Hin. unfold object_prototype_keys in Hin. member_cases Hin.
  - apply (Hold [m1]). reflexivity.
  - by apply Hothers.
Defined.

(** C1, refuted as stated: the history of c1 was loaded and holds m1; the
    insert event for m1 then arrives (the subscription was opened before the
    load resolved), and the handler leaves m1 in the list twice. *)
Lemma onMessageInsert_duplicates :
  let m1 := sample_message "m1" "c1" "u2" "hi" in
  let env := sample_env (Some "u1") [] (all_succeed [] [m1] "c9") in
  let s := final (run env [] (fetchMessages "c1") initialState) in
  let s' := final (run env [SelectMessages "c1"]
                     (callback (subscribeToChat "c1") (mkPayload "m1")) s) in
  messages s !! "c1" = Some [m1]
  ∧ messages s' !! "c1" = Some [m1; m1]
  ∧ ¬ no_duplicate_ids (default [] (messages s' !! "c1")).
Proof.
  split; [reflexivity |]. split; [reflexivity |].
  unfold no_duplicate_ids. simpl. intros Hnd.
  apply NoDup_cons in Hnd as [Hnot _]. apply Hnot, elem_of_cons. by left.
Qed.

(** ** Typing indicators *)

Section TypingList.
Variables (c u : string).

(** Dropping the entries of a pair deletes the pair from the set. *)
Lemma typing_set_filter l :
  typing_set (filter (λ t, ¬ typing_matches c u t) l)
    = delete (c, u) (typing_set l).
Proof.
  unfold typing_set. induction l as [| t l IH]; csimpl.
  - by rewrite delete_empty.
  - destruct (decide (typing_matches c u t)) as [Hm | Hm].
    + rewrite filter_cons_False by tauto.
      destruct Hm as [Hc Hu]. unfold typing_key. rewrite Hc, Hu.
      by rewrite delete_insert_eq.
    + rewrite filter_cons_True by done. csimpl.
      rewrite IH, delete_insert_ne; [done |].
      unfold typing_key. intros [= Hc Hu]. apply Hm. by split.
Qed.

Lemma typing_key_filtered l :
  (c, u) ∉ ((λ t, (typing_key t, t)) <$>
              filter (λ t, ¬ typing_matches c u t) l).*1.
Proof.
  intros Hin. apply list_elem_of_fmap in Hin as ([k t] & Hk & Hin).
  apply list_elem_of_fmap in Hin as (t' & [= -> ->] & Hin).
  apply list_elem_of_filter in Hin as [Hno _].
  simpl in Hk. unfold typing_key in Hk. injection Hk as -> ->.
  by apply Hno.
Qed.

Lemma matches_after_filter l :
  filter (typing_matches c u) (filter (λ t, ¬ typing_matches c u t) l) = [].
Proof.
  induction l as [| t l IH]; [done |].
  destruct (decide (typing_matches c u t)) as [Hm | Hm].
  - by rewrite filter_cons_False by tauto.
  - rewrite filter_cons_True by done. by rewrite filter_cons_False.
Qed.

(** Nothing is dropped when the pair has no entry. *)
Lemma filter_absent (l : list TypingIndicator) :
  (c, u) ∉ typing_key <$> l →
  filter (λ t, ¬ typing_matches c u t) l = l.
Proof.
  induction l as [| t l IH]; [done |].
  rewrite fmap_cons, not_elem_of_cons. intros [Ht Hl].
  rewrite filter_cons_True, IH; [done | done |].
  intros [Hc Hu]. apply Ht. unfold typing_key. by rewrite Hc, Hu.
Qed.

Lemma length_filter_filter (c' u' : string) l :
  length (filter (typing_matches c' u')
            (filter (λ t, ¬ typing_matches c u t) l))
    ≤ length (filter (typing_matches c' u') l).
Proof.
  induction l as [| t l IH]; [done |].
  destruct (decide (typing_matches c u t)) as [Hm | Hm].
  - rewrite (filter_cons_False (λ t, ¬ typing_matches c u t)) by tauto.
    rewrite (filter_cons (typing_matches c' u')).
    destruct (decide (typing_matches c' u' t)); simpl; lia.
  - rewrite (filter_cons_True (λ t, ¬ typing_matches c u t)) by done.
    rewrite !(filter_cons (typing_matches c' u')).
    destruct (decide (typing_matches c' u' t)); simpl; lia.
Qed.
End TypingList.

Section TypingStep.
Variables (env : Env) (history : list Request).

Lemma typing_calls_cons op rest s :
  run env history (typing_calls (op :: rest)) s
    = run env history (typing_calls rest)
        (final (run env history (typing_action op) s)).
Proof. destruct op; reflexivity. Qed.

(** One call is one step of the replay. *)
Lemma typing_action_step op s :
  typing_set (typingUsers (final (run env history (typing_action op) s)))
    = spec_typing_step (typing_set (typingUsers s)) op.
Proof.
  destruct op as [c u | c u]; simpl.
  - unfold typing_set. rewrite fmap_app. simpl.
    rewrite list_to_map_snoc by apply typing_key_filtered.
    fold (typing_set (filter (λ t, ¬ typing_matches c u t) (typingUsers s))).
    by rewrite typing_set_filter, insert_delete_eq.
  - apply typing_set_filter.
Qed.

(** One call keeps the pairs apart. *)
Lemma typing_action_at_most_one op s :
  at_most_one_per_pair (typingUsers s) →
  at_most_one_per_pair
    (typingUsers (final (run env history (typing_action op) s))).
Proof.
  intros Hs c' u'. specialize (Hs c' u').
  destruct op as [c u | c u]; simpl.
  - rewrite filter_app, length_app.
    destruct (decide (c' = c ∧ u' = u)) as [[-> ->] | Hne].
    + rewrite matches_after_filter. simpl.
      exact (length_filter (typing_matches c u) [_]).
    + rewrite (filter_cons_False _ _ []), filter_nil.
      * pose proof (length_filter_filter c u c' u' (typingUsers s)).
        simpl. lia.
      * unfold typing_matches. simpl. intros [<- <-]. by apply Hne.
  - pose proof (length_filter_filter c u c' u' (typingUsers s)). lia.
Qed.

(** C8: after every number [k] of calls of a sequence of
    [addTypingUser]/[removeTypingUser] calls, so at its end too, the
    typing set of the store is what replaying these [k] calls gives, add
    as insert-or-replace and remove as delete-if-present; the list holds at
    most one entry per pair, as it did before the calls (the store starts
    with none); and removing a pair that has no entry leaves the store as it
    is. *)
Theorem typing_calls_replay (ops : list TypingOp) (s : ChatState) :
  let after k :=
    typingUsers (final (run env history (typing_calls (take k ops)) s)) in
  (∀ k, typing_set (after k)
          = spec_typing_replay (take k ops) (typing_set (typingUsers s)))
  ∧ (at_most_one_per_pair (typingUsers s) →
     ∀ k, at_most_one_per_pair (after k))
  ∧ (∀ c u, (c, u) ∉ typing_key <$> typingUsers s →
            final (run env history (removeTypingUser c u) s) = s).
Proof.
  simpl. split; [| split].
  - intros k. revert s k.
    induction ops as [| op rest IH]; intros s k.
    + by rewrite take_nil.
    + destruct k as [| k]; [done |].
      rewrite firstn_cons, typing_calls_cons, IH. simpl.
      by rewrite typing_action_step.
  - intros Hs k. revert s k Hs.
    induction ops as [| op rest IH]; intros s k Hs.
    + by rewrite take_nil.
    + destruct k as [| k]; [done |].
      rewrite firstn_cons, typing_calls_cons.
      by apply IH, typing_action_at_most_one.
  - intros c u Habsent. rewrite filter_absent by done. by destruct s.
Qed.
End TypingStep.

Lemma initialState_at_most_one : at_most_one_per_pair (typingUsers initialState).
Proof. intros c u. simpl. lia. Qed.

(** u1 starts typing in c1 twice, u2 once, then u1 stops, twice. *)
Lemma typing_calls_replay_witness :
  let ops := [AddTyping "c1" "u1"; AddTyping "c1" "u2"; AddTyping "c1" "u1";
              RemoveTyping "c1" "u1"; RemoveTyping "c1" "u1"] in
  let env := sample_env None [] (all_fail "offline") in
  let after k :=
    typingUsers (final (run env [] (typing_calls (take k ops)) initialState)) in
  typing_set (after 5) = spec_typing_replay ops ∅
  ∧ at_most_one_per_pair (after 3).
Proof.
  intros ops env after.
  pose proof (typing_calls_replay env [] ops initialState) as (H1 & H2 & _).
  split; [exact (H1 5) | exact (H2 initialState_at_most_one 3)].
Defined.

(** ** The create actions, path by path *)

Lemma find_none_all {A} (f : A → bool) (l : list A) :
  (∀ x, x ∈ l → f x = false) → find f l = None.
Proof.
  induction l as [| a l IH]; intros Hall; simpl; [done |].
  rewrite (Hall a) by (apply elem_of_cons; by left).
  apply IH. intros x Hx. apply Hall, elem_of_cons. by right.
Qed.

Section CreatePaths.
Variables (env : Env) (history : list Request) (s : ChatState).

(** Every way a call of [createDirectChat] can go. *)
Lemma createDirectChat_run userId :
  run env history (createDirectChat userId) s =
    match respond env history AuthGetUser with
    | None => mkOutcome (failed "Not authenticated") s [AuthGetUser]
    | Some user =>
        let me := au_id user in
        let h1 := history ++ [AuthGetUser] in
        match pg_data (respond env h1 SelectDirectChats)
                ≫= find (is_direct_chat_of me userId) with
        | Some chat =>
            mkOutcome (created (dc_id chat)) s [AuthGetUser; SelectDirectChats]
        | None =>
            let h2 := h1 ++ [SelectDirectChats] in
            match respond env h2 (direct_chat_insert me) with
            | PgErr message =>
                mkOutcome (failed message) s
                  [AuthGetUser; SelectDirectChats; direct_chat_insert me]
            | PgOk chat =>
                match respond env (h2 ++ [direct_chat_insert me])
                        (direct_participants_insert chat me userId) with
                | PgErr message =>
                    mkOutcome (failed message) s
                      [AuthGetUser; SelectDirectChats; direct_chat_insert me;
                       direct_participants_insert chat me userId]
                | PgOk _ =>
                    mkOutcome (created (c_id chat)) s
                      [AuthGetUser; SelectDirectChats; direct_chat_insert me;
                       direct_participants_insert chat me userId]
                end
            end
        end
    end.
Proof.
  unfold createDirectChat. simpl.
  destruct (respond env history AuthGetUser) as [user |]; simpl; [| done].
  destruct (pg_data (respond env (history ++ [AuthGetUser]) SelectDirectChats)
              ≫= find (is_direct_chat_of (au_id user) userId))
    as [found |]; simpl; [done |].
  fold (direct_chat_insert (au_id user)).
  destruct (respond env ((history ++ [AuthGetUser]) ++ [SelectDirectChats])
              (direct_chat_insert (au_id user))) as [chat | message];
    simpl; [| done].
  fold (direct_participants_insert chat (au_id user) userId).
  destruct (respond env _ (direct_participants_insert chat (au_id user) userId));
    reflexivity.
Qed.

(** Every way a call of [createGroupChat] can go. *)
Lemma createGroupChat_run name userIds :
  run env history (createGroupChat name userIds) s =
    match respond env history AuthGetUser with
    | None => mkOutcome (failed "Not authenticated") s [AuthGetUser]
    | Some user =>
        let me := au_id user in
        let h1 := history ++ [AuthGetUser] in
        match respond env h1 (group_chat_insert name me) with
        | PgErr message =>
            mkOutcome (failed message) s
              [AuthGetUser; group_chat_insert name me]
        | PgOk chat =>
            match respond env (h1 ++ [group_chat_insert name me])
                    (group_participants_insert chat me userIds) with
            | PgErr message =>
                mkOutcome (failed message) s
                  [AuthGetUser; group_chat_insert name me;
                   group_participants_insert chat me userIds]
            | PgOk _ =>
                mkOutcome (created (c_id chat)) s
                  [AuthGetUser; group_chat_insert name me;
                   group_participants_insert chat me userIds]
            end
        end
    end.
Proof.
  unfold createGroupChat. simpl.
  destruct (respond env history AuthGetUser) as [user |]; simpl; [| done].
  fold (group_chat_insert name (au_id user)).
  destruct (respond env (history ++ [AuthGetUser])
              (group_chat_insert name (au_id user))) as [chat | message];
    simpl; [| done].
  fold (group_participants_insert chat (au_id user) userIds).
  destruct (respond env _ (group_participants_insert chat (au_id user) userIds));
    reflexivity.
Qed.

(** The pre-check finds nothing when the listing failed or lists no chat of
    exactly the two users. *)
Lemma no_direct_chat me userId :
  (∀ existing,
     respond env (history ++ [AuthGetUser]) SelectDirectChats = PgOk existing →
     ∀ c, c ∈ existing →
          ¬ (me ∈ participantIds c ∧ userId ∈ participantIds c
             ∧ length (participantIds c) = 2)) →
  pg_data (respond env (history ++ [AuthGetUser]) SelectDirectChats)
    ≫= find (is_direct_chat_of me userId) = None.
Proof.
  intros Hnone.
  destruct (respond env (history ++ [AuthGetUser]) SelectDirectChats)
    as [existing | message]; simpl; [| done].
  apply find_none_all. intros c Hc.
  apply not_true_is_false. intros Hq.
  by apply (Hnone existing eq_refl c Hc), is_direct_chat_of_spec.
Qed.
End CreatePaths.

(** X1: when the pre-check lists no chat of exactly the signed-in user and
    [userId], and both inserts succeed, [createDirectChat] sends the chat
    insert (type direct, no name, created by the caller), then one
    participant insert with two rows, the caller and [userId], neither
    with an admin flag, both for the chat the first insert returned; it
    returns that chat's id and leaves the store as it was. *)
Theorem createDirectChat_new env history s me userId existing chat :
  respond env history AuthGetUser = Some (mkAuthUser me) →
  respond env (history ++ [AuthGetUser]) SelectDirectChats = PgOk existing →
  (∀ c, c ∈ existing →
        ¬ (me ∈ participantIds c ∧ userId ∈ participantIds c
           ∧ length (participantIds c) = 2)) →
  respond env ((history ++ [AuthGetUser]) ++ [SelectDirectChats])
    (direct_chat_insert me) = PgOk chat →
  respond env (((history ++ [AuthGetUser]) ++ [SelectDirectChats])
               ++ [direct_chat_insert me])
    (direct_participants_insert chat me userId) = PgOk tt →
  run env history (createDirectChat userId) s =
    mkOutcome (created (c_id chat)) s
      [AuthGetUser; SelectDirectChats; direct_chat_insert me;
       direct_participants_insert chat me userId]
  ∧ chatId (result (run env history (createDirectChat userId) s))
      = Some (c_id chat)
  ∧ cr_error (result (run env history (createDirectChat userId) s)) = None.
Proof.
  intros Hauth Hlist Hnone Hchat Hparts.
  rewrite createDirectChat_run, Hauth. simpl.
  rewrite (no_direct_chat env history me userId).
  - by rewrite Hchat, Hparts.
  - intros existing' Heq. rewrite Hlist in Heq. by injection Heq as <-.
Qed.

(** u1 has a direct chat with u3 and is in a group with u2 and u3; a direct
    chat with u2 is created. *)
Lemma createDirectChat_new_witness :
  let existing := [sample_direct "d13" ["u1"; "u3"];
                   sample_direct "g1" ["u1"; "u2"; "u3"]] in
  let env := sample_env (Some "u1") existing (all_succeed [] [] "d12") in
  run env [] (createDirectChat "u2") initialState =
    mkOutcome (created "d12") initialState
      [AuthGetUser; SelectDirectChats; direct_chat_insert "u1";
       InsertParticipants
         [ {| pi_chat_id := "d12"; pi_user_id := "u1"; pi_is_admin := None |};
           {| pi_chat_id := "d12"; pi_user_id := "u2";
              pi_is_admin := None |} ]].
Proof.
  intros existing env.
  refine (proj1 (createDirectChat_new env [] initialState "u1" "u2" existing
                   (sample_chat "d12" direct None "u1" [])
                   eq_refl eq_refl _ eq_refl eq_refl)).
  intros c Hc (H1 & H2 & Hlen). unfold existing in Hc. member_cases Hc.
  - subst c. unfold participantIds, sample_direct in H2. member_cases H2.
  - subst c. discriminate Hlen.
Defined.

(** X2: a failure of the pre-check is not reported and stops nothing: the
    call goes on as if no direct chat existed, sends the chat insert, and
    what it returns is decided by the two inserts alone. *)
Theorem createDirectChat_precheck_failure env history s me userId message :
  respond env history AuthGetUser = Some (mkAuthUser me) →
  respond env (history ++ [AuthGetUser]) SelectDirectChats = PgErr message →
  let h2 := (history ++ [AuthGetUser]) ++ [SelectDirectChats] in
  run env history (createDirectChat userId) s =
    match respond env h2 (direct_chat_insert me) with
    | PgErr message' =>
        mkOutcome (failed message') s
          [AuthGetUser; SelectDirectChats; direct_chat_insert me]
    | PgOk chat =>
        mkOutcome
          match respond env (h2 ++ [direct_chat_insert me])
                  (direct_participants_insert chat me userId) with
          | PgErr message' => failed message'
          | PgOk _ => created (c_id chat)
          end
          s
          [AuthGetUser; SelectDirectChats; direct_chat_insert me;
           direct_participants_insert chat me userId]
    end
  ∧ chatId (result (run env history (createDirectChat userId) s)) =
      match respond env h2 (direct_chat_insert me) with
      | PgErr _ => None
      | PgOk chat =>
          match respond env (h2 ++ [direct_chat_insert me])
                  (direct_participants_insert chat me userId) with
          | PgErr _ => None
          | PgOk _ => Some (c_id chat)
          end
      end
  ∧ cr_error (result (run env history (createDirectChat userId) s)) =
      match respond env h2 (direct_chat_insert me) with
      | PgErr message' => Some message'
      | PgOk chat =>
          match respond env (h2 ++ [direct_chat_insert me])
                  (direct_participants_insert chat me userId) with
          | PgErr message' => Some message'
          | PgOk _ => None
          end
      end.
Proof.
  intros Hauth Hlist. rewrite createDirectChat_run, Hauth. simpl.
  rewrite Hlist. simpl.
  destruct (respond env _ (direct_chat_insert me)) as [chat |]; [| done].
  by destruct (respond env _ (direct_participants_insert chat me userId)).
Qed.

(** The listing times out; a new chat is created all the same. *)
Lemma createDirectChat_precheck_failure_witness :
  let env := sample_backend (Some "u1")
               (fail_only is_direct_listing "timeout"
                  (all_succeed [] [] "d99")) in
  result (run env [] (createDirectChat "u2") initialState) = created "d99"
  ∧ direct_chat_insert "u1"
      ∈ issued (run env [] (createDirectChat "u2") initialState).
Proof.
  intros env.
  rewrite (proj1 (createDirectChat_precheck_failure env [] initialState
                    "u1" "u2" "timeout" eq_refl eq_refl)).
  split; [reflexivity |].
  apply elem_of_cons; right. apply elem_of_cons; right.
  apply elem_of_cons; by left.
Defined.

(** X3: the two failures of the creation path of [createDirectChat].  A
    failed chat insert is returned as the error and no participant insert
    follows.  A failed participant insert after a successful chat insert is
    returned as the error too, and it is the last request of the call:
    nothing removes the chat that was just created. *)
Theorem createDirectChat_failures env history s me userId :
  respond env history AuthGetUser = Some (mkAuthUser me) →
  (∀ existing,
     respond env (history ++ [AuthGetUser]) SelectDirectChats = PgOk existing →
     ∀ c, c ∈ existing →
          ¬ (me ∈ participantIds c ∧ userId ∈ participantIds c
             ∧ length (participantIds c) = 2)) →
  let h2 := (history ++ [AuthGetUser]) ++ [SelectDirectChats] in
  (∀ message,
     respond env h2 (direct_chat_insert me) = PgErr message →
     run env history (createDirectChat userId) s =
       mkOutcome (failed message) s
         [AuthGetUser; SelectDirectChats; direct_chat_insert me]
     ∧ chatId (result (run env history (createDirectChat userId) s)) = None
     ∧ cr_error (result (run env history (createDirectChat userId) s))
         = Some message)
  ∧ (∀ chat message,
       respond env h2 (direct_chat_insert me) = PgOk chat →
       respond env (h2 ++ [direct_chat_insert me])
         (direct_participants_insert chat me userId) = PgErr message →
       run env history (createDirectChat userId) s =
         mkOutcome (failed message) s
           [AuthGetUser; SelectDirectChats; direct_chat_insert me;
            direct_participants_insert chat me userId]
       ∧ chatId (result (run env history (createDirectChat userId) s)) = None
       ∧ cr_error (result (run env history (createDirectChat userId) s))
           = Some message).
Proof.
  intros Hauth Hnone h2. subst h2.
  split; [intros message Hchat | intros chat message Hchat Hparts];
    rewrite createDirectChat_run, Hauth; simpl;
    rewrite (no_direct_chat env history me userId Hnone), Hchat; [done |].
  by rewrite Hparts.
Qed.

(** The chat d12 is created, its participants are refused. *)
Lemma createDirectChat_failures_witness :
  let env := sample_env (Some "u1") []
               (fail_only is_participants_insert "row violates policy"
                  (all_succeed [] [] "d12")) in
  run env [] (createDirectChat "u2") initialState =
    mkOutcome (failed "row violates policy") initialState
      [AuthGetUser; SelectDirectChats; direct_chat_insert "u1";
       direct_participants_insert (sample_chat "d12" direct None "u1" [])
         "u1" "u2"].
Proof.
  intros env.
  refine (proj1 (proj2 (createDirectChat_failures env [] initialState
                          "u1" "u2" eq_refl _)
                   (sample_chat "d12" direct None "u1" [])
                   "row violates policy" eq_refl eq_refl)).
  intros existing Heq c Hc. injection Heq as <-. member_cases Hc.
Defined.

(** X4: the two failures of [createGroupChat].  A failed chat insert is
    returned as the error and no participant insert follows.  A failed
    participant insert after a successful chat insert is returned as the
    error, and it is the last request of the call: the group stays, with no
    participant. *)
Theorem createGroupChat_failures env history s me name userIds :
  respond env history AuthGetUser = Some (mkAuthUser me) →
  let h1 := history ++ [AuthGetUser] in
  (∀ message,
     respond env h1 (group_chat_insert name me) = PgErr message →
     run env history (createGroupChat name userIds) s =
       mkOutcome (failed message) s [AuthGetUser; group_chat_insert name me]
     ∧ chatId (result (run env history (createGroupChat name userIds) s))
         = None
     ∧ cr_error (result (run env history (createGroupChat name userIds) s))
         = Some message)
  ∧ (∀ chat message,
       respond env h1 (group_chat_insert name me) = PgOk chat →
       respond env (h1 ++ [group_chat_insert name me])
         (group_participants_insert chat me userIds) = PgErr message →
       run env history (createGroupChat name userIds) s =
         mkOutcome (failed message) s
           [AuthGetUser; group_chat_insert name me;
            group_participants_insert chat me userIds]
       ∧ chatId (result (run env history (createGroupChat name userIds) s))
           = None
       ∧ cr_error (result (run env history (createGroupChat name userIds) s))
           = Some message).
Proof.
  intros Hauth h1. subst h1.
  split; [intros message Hchat | intros chat message Hchat Hparts];
    rewrite createGroupChat_run, Hauth; simpl; rewrite Hchat; [done |].
  by rewrite Hparts.
Qed.

(** The group g1 is created; u1 listed himself, and the batch, which names
    him twice, is refused. *)
Lemma createGroupChat_failures_witness :
  let env := sample_env (Some "u1") []
               (fail_only is_participants_insert "duplicate key"
                  (all_succeed [] [] "g1")) in
  run env [] (createGroupChat "Team" ["u2"; "u1"]) initialState =
    mkOutcome (failed "duplicate key") initialState
      [AuthGetUser; group_chat_insert "Team" "u1";
       InsertParticipants
         [ {| pi_chat_id := "g1"; pi_user_id := "u1";
              pi_is_admin := Some true |};
           {| pi_chat_id := "g1"; pi_user_id := "u2";
              pi_is_admin := Some false |};
           {| pi_chat_id := "g1"; pi_user_id := "u1";
              pi_is_admin := Some false |} ]].
Proof.
  intros env.
  exact (proj1 (proj2 (createGroupChat_failures env [] initialState "u1"
                         "Team" ["u2"; "u1"] eq_refl)
                  (sample_chat "g1" group (Some "Team") "u1" [])
                  "duplicate key" eq_refl eq_refl)).
Defined.

(** X5: with nobody signed in, [createDirectChat] and [createGroupChat]
    return the error Not authenticated after the identity lookup, their
    only request, and leave the store as it was. *)
Theorem create_unauthenticated env history s userId name userIds :
  respond env history AuthGetUser = None →
  run env history (createDirectChat userId) s
    = mkOutcome (failed "Not authenticated") s [AuthGetUser]
  ∧ run env history (createGroupChat name userIds) s
    = mkOutcome (failed "Not authenticated") s [AuthGetUser]
  ∧ chatId (result (run env history (createDirectChat userId) s)) = None
  ∧ cr_error (result (run env history (createDirectChat userId) s))
      = Some "Not authenticated"
  ∧ chatId (result (run env history (createGroupChat name userIds) s)) = None
  ∧ cr_error (result (run env history (createGroupChat name userIds) s))
      = Some "Not authenticated".
Proof.
  intros Hnone.
  by rewrite createDirectChat_run, createGroupChat_run, Hnone.
Qed.

Lemma create_unauthenticated_witness :
  let env := sample_env None [sample_direct "d12" ["u1"; "u2"]]
               (all_succeed [] [] "c9") in
  result (run env [] (createDirectChat "u2") initialState)
    = failed "Not authenticated"
  ∧ issued (run env [] (createGroupChat "Team" ["u2"]) initialState)
    = [AuthGetUser].
Proof.
  intros env.
  destruct (create_unauthenticated env [] initialState "u2" "Team" ["u2"]
              eq_refl) as (-> & -> & _).
  by split.
Defined.

Lemma createDirectChat_shape env history s userId :
  let o := run env history (createDirectChat userId) s in
  (is_Some (chatId (result o)) ↔ cr_error (result o) = None)
  ∧ final o = s
  ∧ head (issued o) = Some AuthGetUser.
Proof.
  intros o. subst o. rewrite createDirectChat_run.
  destruct (respond env history AuthGetUser) as [user |]; [| outcome_shape].
  simpl.
  destruct (pg_data _ ≫= find _) as [found |]; [outcome_shape |].
  destruct (respond env _ (direct_chat_insert (au_id user))) as [chat |];
    [| outcome_shape].
  destruct (respond env _ (direct_participants_insert chat _ userId));
    outcome_shape.
Qed.

Lemma createGroupChat_shape env history s name userIds :
  let o := run env history (createGroupChat name userIds) s in
  (is_Some (chatId (result o)) ↔ cr_error (result o) = None)
  ∧ final o = s
  ∧ head (issued o) = Some AuthGetUser.
Proof.
  intros o. subst o. rewrite createGroupChat_run.
  destruct (respond env history AuthGetUser) as [user |]; [| outcome_shape].
  simpl.
  destruct (respond env _ (group_chat_insert name (au_id user))) as [chat |];
    [| outcome_shape].
  destruct (respond env _ (group_participants_insert chat _ userIds));
    outcome_shape.
Qed.

(** X6: whatever the backend answers, a create action returns either a
    chat id or an error, never both and never neither; it starts with the
    identity lookup; and it does not touch the store: a chat it created is
    not in [chats] until a later [fetchChats]. *)
Theorem create_result_exclusive env history s userId name userIds :
  let direct_o := run env history (createDirectChat userId) s in
  let group_o := run env history (createGroupChat name userIds) s in
  (is_Some (chatId (result direct_o)) ↔ cr_error (result direct_o) = None)
  ∧ (is_Some (chatId (result group_o)) ↔ cr_error (result group_o) = None)
  ∧ final direct_o = s
  ∧ final group_o = s
  ∧ head (issued direct_o) = Some AuthGetUser
  ∧ head (issued group_o) = Some AuthGetUser.
Proof.
  intros direct_o group_o.
  destruct (createDirectChat_shape env history s userId) as (Hd1 & Hd2 & Hd3).
  destruct (createGroupChat_shape env history s name userIds)
    as (Hg1 & Hg2 & Hg3).
  repeat split; first [apply Hd1 | apply Hg1 | done].
Qed.

(** X7: a participant insert is sent only after a chat insert of the same
    call succeeded, and every row of it carries the id of the chat that
    insert returned.  For [createGroupChat] the rows name the caller and
    then the given ids as they are, repeated ids and the caller's own
    included; for [createDirectChat], the caller and [userId]. *)
Theorem create_participants_after_chat env history s userId name userIds
    rows :
  (InsertParticipants rows
     ∈ issued (run env history (createGroupChat name userIds) s) →
   ∃ me chat,
     respond env history AuthGetUser = Some (mkAuthUser me)
     ∧ respond env (history ++ [AuthGetUser]) (group_chat_insert name me)
         = PgOk chat
     ∧ Forall (λ row, pi_chat_id row = c_id chat) rows
     ∧ map pi_user_id rows = me :: userIds)
  ∧ (InsertParticipants rows
       ∈ issued (run env history (createDirectChat userId) s) →
     ∃ me chat,
       respond env history AuthGetUser = Some (mkAuthUser me)
       ∧ respond env ((history ++ [AuthGetUser]) ++ [SelectDirectChats])
           (direct_chat_insert me) = PgOk chat
       ∧ Forall (λ row, pi_chat_id row = c_id chat) rows
       ∧ map pi_user_id rows = [me; userId]).
Proof.
  assert (Hrows : ∀ (chat : Chat) (ids : list string),
    Forall (λ row, pi_chat_id row = c_id chat)
      (map (λ u, {| pi_chat_id := c_id chat; pi_user_id := u;
                    pi_is_admin := Some false |}) ids)
    ∧ map pi_user_id
        (map (λ u, {| pi_chat_id := c_id chat; pi_user_id := u;
                      pi_is_admin := Some false |}) ids) = ids).
  { intros chat ids. induction ids as [| u ids [IH1 IH2]]; simpl.
    - by split.
    - split; [by constructor | by rewrite IH2]. }
  split; intros Hin.
  - rewrite createGroupChat_run in Hin.
    destruct (respond env history AuthGetUser) as [[me] |];
      [| member_cases Hin].
    exists me. simpl in Hin.
    destruct (respond env _ (group_chat_insert name me)) as [chat |];
      [| member_cases Hin].
    exists chat. split; [done |]. split; [done |].
    assert (Hreq : InsertParticipants rows
                   = group_participants_insert chat me userIds).
    { destruct (respond env _ (group_participants_insert chat me userIds));
        member_cases Hin; done. }
    injection Hreq as ->. destruct (Hrows chat userIds) as [H1 H2].
    split; [by constructor | simpl; by rewrite H2].
  - rewrite createDirectChat_run in Hin.
    destruct (respond env history AuthGetUser) as [[me] |];
      [| member_cases Hin].
    exists me. simpl in Hin.
    destruct (pg_data _ ≫= find _) as [found |]; [member_cases Hin |].
    destruct (respond env _ (direct_chat_insert me)) as [chat |];
      [| member_cases Hin].
    exists chat. split; [done |]. split; [done |].
    assert (Hreq : InsertParticipants rows
                   = direct_participants_insert chat me userId).
    { destruct (respond env _ (direct_participants_insert chat me userId));
        member_cases Hin; done. }
    injection Hreq as ->. split; [| done].
    repeat constructor.
Qed.

(** u1 creates a group and lists u2 twice. *)
Lemma create_participants_after_chat_witness :
  let env := sample_env (Some "u1") [] (all_succeed [] [] "g1") in
  let rows := [ {| pi_chat_id := "g1"; pi_user_id := "u1";
                   pi_is_admin := Some true |};
                {| pi_chat_id := "g1"; pi_user_id := "u2";
                   pi_is_admin := Some false |};
                {| pi_chat_id := "g1"; pi_user_id := "u2";
                   pi_is_admin := Some false |} ] in
  ∃ me chat,
    respond env [] AuthGetUser = Some (mkAuthUser me)
    ∧ respond env [AuthGetUser] (group_chat_insert "Team" me) = PgOk chat
    ∧ Forall (λ row, pi_chat_id row = c_id chat) rows
    ∧ map pi_user_id rows = me :: ["u2"; "u2"].
Proof.
  intros env rows.
  apply (proj1 (create_participants_after_chat env [] initialState "u9"
                  "Team" ["u2"; "u2"] rows)).
  apply elem_of_cons; right. apply elem_of_cons; right.
  apply elem_of_cons; by left.
Defined.

(** X8: asked for a direct chat with the caller himself, [createDirectChat]
    creates nothing when the listing holds a two-participant chat of the
    caller: it returns the id of the first listed chat with two participant
    rows, one of them the caller's, whoever the other participant is. *)
Theorem createDirectChat_self env history s me existing c :
  respond env history AuthGetUser = Some (mkAuthUser me) →
  respond env (history ++ [AuthGetUser]) SelectDirectChats = PgOk existing →
  c ∈ existing →
  me ∈ participantIds c →
  length (participantIds c) = 2 →
  ∃ before c' after,
    existing = before ++ c' :: after
    ∧ (∀ d, d ∈ before →
            ¬ (me ∈ participantIds d ∧ length (participantIds d) = 2))
    ∧ me ∈ participantIds c'
    ∧ length (participantIds c') = 2
    ∧ chatId (result (run env history (createDirectChat me) s))
        = Some (dc_id c')
    ∧ cr_error (result (run env history (createDirectChat me) s)) = None
    ∧ final (run env history (createDirectChat me) s) = s
    ∧ issued (run env history (createDirectChat me) s)
        = [AuthGetUser; SelectDirectChats].
Proof.
  intros Hauth Hlist Hin Hme Hlen.
  assert (Hc : is_direct_chat_of me me c = true)
    by by apply is_direct_chat_of_spec.
  destruct (find_first_split _ _ _ Hin Hc)
    as (before & c' & after & Hsplit & Hbefore & Hc' & Hfind).
  apply is_direct_chat_of_spec in Hc' as (Hme' & _ & Hlen').
  exists before, c', after. split; [done |]. split.
  { intros d Hd [Hd1 Hd2].
    assert (Hq : is_direct_chat_of me me d = true)
      by by apply is_direct_chat_of_spec.
    by rewrite (Hbefore d Hd) in Hq. }
  repeat (split; [done |]).
  by rewrite (createDirectChat_found env history s me me existing
                Hauth Hlist c' Hfind).
Qed.

(** u1 is in a group with u2 and u3 and has direct chats with u2 and with
    u3; he asks for a direct chat with himself and gets the one with u2,
    the first of the two listed. *)
Lemma createDirectChat_self_witness :
  let existing := [sample_direct "g1" ["u1"; "u2"; "u3"];
                   sample_direct "d12" ["u2"; "u1"];
                   sample_direct "d13" ["u1"; "u3"]] in
  let env := sample_env (Some "u1") existing (all_succeed [] [] "c9") in
  chatId (result (run env [] (createDirectChat "u1") initialState))
    = Some "d12"
  ∧ issued (run env [] (createDirectChat "u1") initialState)
    = [AuthGetUser; SelectDirectChats].
Proof.
  intros existing env.
  destruct (createDirectChat_self env [] initialState "u1" existing
              (sample_direct "d13" ["u1"; "u3"]) eq_refl eq_refl)
    as (before & c' & after & _ & _ & _ & _ & Hid & _ & _ & Hissued).
  - apply elem_of_cons; right. apply elem_of_cons; right.
    apply elem_of_cons; by left.
  - apply elem_of_cons; by left.
  - reflexivity.
  - split; [| exact Hissued].
    rewrite Hid. symmetry. exact Hid.
Defined.

(** ** [sendMessage], the successful send *)

(** X9: a send by a signed-in user whose insert succeeds sends the
    timestamp update for the same chat, stamped with the clock read after
    the insert resolved, and ends there: whether that update succeeds is not
    looked at, and the store is exactly as before: the message is not put
    in [messages], and an error left by an earlier action stays. *)
Theorem sendMessage_success env history s chatId text replyTo user :
  respond env history AuthGetUser = Some user →
  respond env (history ++ [AuthGetUser])
    (InsertMessage (message_row chatId text replyTo user)) = PgOk tt →
  run env history (sendMessage chatId text replyTo) s =
    mkOutcome tt s
      [AuthGetUser; InsertMessage (message_row chatId text replyTo user);
       UpdateChatUpdatedAt chatId
         (clock env ((history ++ [AuthGetUser])
                     ++ [InsertMessage (message_row chatId text replyTo user)]))].
Proof.
  intros Hauth Hinsert. by rewrite sendMessage_run, Hauth, Hinsert.
Qed.

(** The message goes in, the timestamp update is refused. *)
Lemma sendMessage_success_witness :
  let env := sample_backend (Some "u1")
               (fail_only is_timestamp_update "permission denied"
                  (all_succeed [] [] "c9")) in
  let s := with_error (Some "stale") initialState in
  run env [] (sendMessage "c1" "hello" (Some "m1")) s =
    mkOutcome tt s
      [AuthGetUser;
       InsertMessage {| mi_chat_id := "c1"; mi_sender_id := "u1";
                        mi_text := "hello"; mi_reply_to := Some "m1" |};
       UpdateChatUpdatedAt "c1" "2024-05-01T12:00:00.000Z"].
Proof.
  intros env s.
  exact (sendMessage_success env [] s "c1" "hello" (Some "m1")
           (mkAuthUser "u1") eq_refl eq_refl).
Defined.

(** ** [fetchChats], the successful refresh *)

Lemma transformChat_id (rows : list Chat) :
  map c_id (map transformChat rows) = map c_id rows.
Proof. induction rows as [| c rows IH]; simpl; [done | by rewrite IH]. Qed.

Lemma transformChat_participants (rows : list Chat) :
  Forall (λ c, participants c = chat_participants c) (map transformChat rows).
Proof. induction rows as [| c rows IH]; simpl; by constructor. Qed.

Lemma transformChat_fields (rows : list Chat) :
  Forall2 (λ row c,
             c_id c = c_id row ∧ c_type c = c_type row ∧ name c = name row
             ∧ c_avatar_url c = c_avatar_url row
             ∧ created_by c = created_by row
             ∧ c_created_at c = c_created_at row
             ∧ c_updated_at c = c_updated_at row
             ∧ chat_participants c = chat_participants row
             ∧ participants c = chat_participants row
             ∧ last_message c = last_message row)
    rows (map transformChat rows).
Proof.
  induction rows as [| row rows IH]; simpl; constructor; [| done].
  repeat split.
Qed.

(** X10: a successful [fetchChats], called directly or by the handler of
    [subscribeToChats] on any change event, replaces the whole chat
    collection, whatever it held, by the fetched rows in the order the
    backend gave them, each with its joined participant rows copied to
    [participants]; [loading] and [error] are cleared; messages, typing
    indicators and the active chat are untouched. *)
Theorem fetchChats_success env history s rows payload :
  respond env history SelectChats = PgOk rows →
  let s' := final (run env history fetchChats s) in
  chats s' = map transformChat rows
  ∧ map c_id (chats s') = map c_id rows
  ∧ Forall (λ c, participants c = chat_participants c) (chats s')
  ∧ loading s' = false
  ∧ error s' = None
  ∧ messages s' = messages s
  ∧ typingUsers s' = typingUsers s
  ∧ activeChat s' = activeChat s
  ∧ run env history (callback subscribeToChats payload) s
      = run env history fetchChats s
  ∧ Forall2 (λ row c,
               c_id c = c_id row ∧ c_type c = c_type row ∧ name c = name row
               ∧ c_avatar_url c = c_avatar_url row
               ∧ created_by c = created_by row
               ∧ c_created_at c = c_created_at row
               ∧ c_updated_at c = c_updated_at row
               ∧ chat_participants c = chat_participants row
               ∧ participants c = chat_participants row
               ∧ last_message c = last_message row)
      rows (chats s').
Proof.
  intros Hok. change (callback subscribeToChats payload) with fetchChats.
  rewrite fetchChats_run, Hok. simpl.
  split; [done |]. split; [apply transformChat_id |].
  split; [apply transformChat_participants |].
  repeat (split; [done |]). apply transformChat_fields.
Qed.

(** A store with a stale chat and a stale error is refreshed with two
    chats. *)
Lemma fetchChats_success_witness :
  let rows := [sample_chat "g1" group (Some "Team") "u1" ["u1"; "u2"; "u3"];
               sample_chat "d12" direct None "u1" ["u1"; "u2"]] in
  let env := sample_env (Some "u1") [] (all_succeed rows [] "c9") in
  let s := with_error (Some "stale")
             (with_chats [sample_chat "old" direct None "u1" ["u1"; "u4"]]
                initialState) in
  let s' := final (run env [] fetchChats s) in
  map c_id (chats s') = ["g1"; "d12"] ∧ error s' = None.
Proof.
  intros rows env s s'.
  pose proof (fetchChats_success env [] s rows (mkPayload "g1") eq_refl)
    as (_ & Hids & _ & _ & Herr & _).
  split; [exact Hids | exact Herr].
Defined.

(** ** Sessions *)

Lemma session_cons env history a rest s :
  run env history (session (a :: rest)) s =
    let o := run env history (perform a) s in
    let o' := run env (history ++ issued o) (session rest) (final o) in
    mkOutcome (result o') (final o') (issued o ++ issued o').
Proof. exact (run_bind env (perform a) (λ _, session rest) history s). Qed.

Lemma messages_or_empty_insert (ms : gmap string (list Message)) chatId l :
  messages_or_empty (<[chatId := l]> ms) chatId = Some l.
Proof. unfold messages_or_empty. by rewrite lookup_insert_eq. Qed.

(** X11: an insert event delivered to the handler of
    [subscribeToChat(chatId)] only sends the re-fetch: the store is as it
    was while the re-fetch is pending.  As the re-fetches of several events
    resolve, the rows they return are put at the end of the list of the
    chat in the order of resolution, which need not be the order of
    arrival: what was in the list stays, in place, a re-fetch that returned
    no row leaves no trace, the lists of the other chats are untouched and
    nothing more is sent.  When the chat has no list and its id is the name
    of a property plain objects inherit, the spread throws in every
    resolution and the store stays as it was. *)
Theorem chat_events_append env history s chatId :
  (∀ payload,
     start env history (callback (subscribeToChat chatId) payload) s
       = Pending (SelectMessageById (new_id payload))
           (onMessageInsert_resume chatId) s)
  ∧ (∀ answers l0,
       messages_or_empty (messages s) chatId = Some l0 →
       let o := run env history (resolutions chatId answers) s in
       messages_or_empty (messages (final o)) chatId
         = Some (l0 ++ omap pg_data answers)
       ∧ (∀ k, k ≠ chatId → messages (final o) !! k = messages s !! k)
       ∧ issued o = [])
  ∧ (∀ answers,
       messages s !! chatId = None →
       chatId ∈ object_prototype_keys →
       run env history (resolutions chatId answers) s = mkOutcome tt s []).
Proof.
  split; [done |]. split.
  - intros answers. revert s.
    induction answers as [| r rest IH]; intros s l0 Hl0 o; subst o.
    + simpl. by rewrite app_nil_r.
    + change (resolutions chatId (r :: rest))
        with (bind (onMessageInsert_resume chatId r)
                (λ _, resolutions chatId rest)).
      rewrite run_bind, onMessageInsert_resume_run.
      cbn [result final issued app]. rewrite app_nil_r.
      destruct r as [message | ?]; cbn [pg_data omap list_omap].
      * rewrite Hl0.
        destruct (IH (with_messages
                        (<[chatId := l0 ++ [message]]> (messages s)) s)
                    (l0 ++ [message]))
          as (Hlist & Hothers & Hissued);
          [apply messages_or_empty_insert |].
        split; [by rewrite Hlist, <- app_assoc |]. split; [| done].
        intros k Hk. rewrite (Hothers k Hk). simpl.
        by apply lookup_insert_ne.
      * by apply IH.
  - intros answers Hnone Hkey.
    assert (Hthrows : messages_or_empty (messages s) chatId = None).
    { unfold messages_or_empty. by rewrite Hnone, bool_decide_eq_true_2. }
    induction answers as [| r rest IH]; [done |].
    change (resolutions chatId (r :: rest))
      with (bind (onMessageInsert_resume chatId r)
              (λ _, resolutions chatId rest)).
    rewrite run_bind, onMessageInsert_resume_run.
    cbn [result final issued app]. rewrite Hthrows, app_nil_r.
    destruct (pg_data r); by rewrite IH.
Qed.

(** Events for m1, m2 and m3 arrive in this order; the re-fetch for m3
    resolves first, the one for m2 fails, the one for m1 resolves last.
    Then the same for a chat named constructor, which has no list. *)
Lemma chat_events_append_witness :
  let m0 := sample_message "m0" "c1" "u1" "first" in
  let m1 := sample_message "m1" "c1" "u2" "hi" in
  let m3 := sample_message "m3" "c1" "u2" "ho" in
  let env := sample_env (Some "u1") [] (all_fail "offline") in
  let s := with_messages {[ "c1" := [m0]; "c2" := [] ]} initialState in
  let answers := [PgOk m3; PgErr "timeout"; PgOk m1] in
  messages (final (run env [] (resolutions "c1" answers) s)) !! "c1"
    = Some [m0; m3; m1]
  ∧ messages (final (run env [] (resolutions "c1" answers) s)) !! "c2"
    = Some []
  ∧ final (run env [] (resolutions "constructor" answers) s) = s.
Proof.
  intros m0 m1 m3 env s answers.
  pose proof (chat_events_append env [] s "c1") as (_ & Happend & _).
  destruct (Happend answers [m0] eq_refl) as (Hlist & Hothers & _).
  pose proof (chat_events_append env [] s "constructor") as (_ & _ & Hthrow).
  split; [| split].
  - unfold messages_or_empty in Hlist.
    destruct (messages (final (run env [] (resolutions "c1" answers) s))
                !! "c1") as [l |] eqn:Hl; [exact Hlist |].
    discriminate Hl.
  - by rewrite Hothers.
  - rewrite Hthrow; [done | done |].
    apply elem_of_cons. by left.
Defined.

(** ** Subscriptions *)

(** X12: every chat has a channel of its own: the subscriptions of two
    chats share neither their channel name nor their filter, and no chat's
    channel is the channel of the chat list; a chat subscription listens to
    inserts on [messages] only. *)
Theorem subscription_channels_distinct (a b : string) :
  (channel (subscribeToChat a) = channel (subscribeToChat b) → a = b)
  ∧ (filter_ (subscribeToChat a) = filter_ (subscribeToChat b) → a = b)
  ∧ channel (subscribeToChat a) ≠ channel subscribeToChats
  ∧ event (subscribeToChat a) = INSERT
  ∧ table (subscribeToChat a) = "messages".
Proof.
  repeat split; simpl.
  - intros Hname. by injection Hname.
  - intros Hfilter. by injection Hfilter.
  - intros Hname. by injection Hname.
Qed.

Lemma subscription_channels_distinct_witness :
  channel (subscribeToChat "s") ≠ channel subscribeToChats
  ∧ channel (subscribeToChat "c1") = "chat-c1".
Proof.
  split; [| reflexivity].
  exact (proj1 (proj2 (proj2 (subscription_channels_distinct "s" "s")))).
Defined.

(** ** Typing indicators: how the two actions compose *)

Section TypingAlgebra.
Variables (c u : string).

Lemma filter_twice (l : list TypingIndicator) :
  filter (λ t, ¬ typing_matches c u t) (filter (λ t, ¬ typing_matches c u t) l)
    = filter (λ t, ¬ typing_matches c u t) l.
Proof.
  induction l as [| t l IH]; [done |].
  destruct (decide (typing_matches c u t)) as [Hm | Hm].
  - by rewrite filter_cons_False by tauto.
  - rewrite (filter_cons_True _ t l) by done.
    by rewrite filter_cons_True, IH by done.
Qed.

Lemma filter_added (l : list TypingIndicator) :
  filter (λ t, ¬ typing_matches c u t)
    (l ++ [ {| user_id := u; chat_id := c; user := None |} ])
    = filter (λ t, ¬ typing_matches c u t) l.
Proof.
  rewrite filter_app, filter_cons_False, filter_nil, app_nil_r; [done |].
  intros Hno. by apply Hno.
Qed.
End TypingAlgebra.

(** X13: on one pair, the typing actions absorb what came before: adding
    twice is adding once, removing twice is removing once, a remove after an
    add is just the remove, and an add after a remove is just the add; the
    stores are equal, entry for entry and in order. *)
Theorem typing_calls_absorb env history s c u :
  let after ops := final (run env history (typing_calls ops) s) in
  after [AddTyping c u; AddTyping c u] = after [AddTyping c u]
  ∧ after [RemoveTyping c u; RemoveTyping c u] = after [RemoveTyping c u]
  ∧ after [AddTyping c u; RemoveTyping c u] = after [RemoveTyping c u]
  ∧ after [RemoveTyping c u; AddTyping c u] = after [AddTyping c u].
Proof.
  simpl. unfold with_typingUsers. simpl.
  by rewrite !filter_added, !filter_twice.
Qed.

(** X14: a typing action on one pair leaves the entries of all other pairs
    as they are and in their order; [addTypingUser] puts the entry of its
    pair last, without user details, whatever entry the pair had; and a
    sequence of typing actions sends nothing to the backend and changes no
    field of the store but [typingUsers]. *)
Theorem typing_others_kept env history s c u ops :
  let added := final (run env history (addTypingUser c u) s) in
  let removed := final (run env history (removeTypingUser c u) s) in
  let o := run env history (typing_calls ops) s in
  filter (λ t, ¬ typing_matches c u t) (typingUsers added)
    = filter (λ t, ¬ typing_matches c u t) (typingUsers s)
  ∧ filter (λ t, ¬ typing_matches c u t) (typingUsers removed)
    = filter (λ t, ¬ typing_matches c u t) (typingUsers s)
  ∧ typingUsers added
    = typingUsers removed ++ [ {| user_id := u; chat_id := c; user := None |} ]
  ∧ issued o = []
  ∧ final o = with_typingUsers (typingUsers (final o)) s.
Proof.
  simpl. rewrite filter_added, filter_twice.
  repeat (split; [done |]).
  revert s. induction ops as [| op rest IH]; intros s.
  - simpl. by destruct s.
  - rewrite typing_calls_cons.
    destruct (IH (final (run env history (typing_action op) s))) as [-> ->].
    split; [done |]. by destruct op.
Qed.

(** ** What each action does to the store *)

(** The store after one action, case by case. *)
Lemma perform_final env history a s :
  final (run env history (perform a) s) =
    match a with
    | DoClearError => with_error None s
    | DoSetActiveChat chat => with_activeChat chat s
    | DoFetchChats | OnChatsEvent _ =>
        match respond env history SelectChats with
        | PgErr message =>
            with_error (Some message)
              (with_loading false (with_error None (with_loading true s)))
        | PgOk rows =>
            with_loading false
              (with_chats (map transformChat rows)
                 (with_error None (with_loading true s)))
        end
    | DoFetchMessages chatId =>
        match respond env history (SelectMessages chatId) with
        | PgErr message => with_error (Some message) s
        | PgOk fetched => with_messages (<[chatId := fetched]> (messages s)) s
        end
    | DoSendMessage chatId text replyTo =>
        match respond env history AuthGetUser with
        | None => s
        | Some user =>
            match respond env (history ++ [AuthGetUser])
                    (InsertMessage (message_row chatId text replyTo user)) with
            | PgErr message => with_error (Some message) s
            | PgOk _ => s
            end
        end
    | DoCreateDirectChat _ | DoCreateGroupChat _ _ => s
    | OnChatEvent chatId payload =>
        match pg_data (respond env history
                         (SelectMessageById (new_id payload))) with
        | Some message =>
            match messages_or_empty (messages s) chatId with
            | Some l =>
                with_messages (<[chatId := l ++ [message]]> (messages s)) s
            | None => s
            end
        | None => s
        end
    | DoTyping (AddTyping c u) =>
        with_typingUsers
          (filter (λ t, ¬ typing_matches c u t) (typingUsers s)
           ++ [ {| user_id := u; chat_id := c; user := None |} ]) s
    | DoTyping (RemoveTyping c u) =>
        with_typingUsers
          (filter (λ t, ¬ typing_matches c u t) (typingUsers s)) s
    end.
Proof.
  destruct a as [| chat | | chatId | chatId text replyTo | userId
                 | name userIds | chatId payload | payload | [c u | c u]];
    try reflexivity.
  - change (perform DoFetchChats) with fetchChats.
    by rewrite fetchChats_run; destruct (respond env history SelectChats).
  - change (perform (DoFetchMessages chatId)) with (fetchMessages chatId).
    by rewrite fetchMessages_run; destruct (respond env history _).
  - change (perform (DoSendMessage chatId text replyTo))
      with (sendMessage chatId text replyTo).
    rewrite sendMessage_run.
    destruct (respond env history AuthGetUser) as [user |]; [| done].
    by destruct (respond env _ (InsertMessage _)).
  - change (perform (DoCreateDirectChat userId))
      with (bind (createDirectChat userId) (λ _, Ret tt)).
    rewrite run_bind. simpl.
    apply (createDirectChat_shape env history s userId).
  - change (perform (DoCreateGroupChat name userIds))
      with (bind (createGroupChat name userIds) (λ _, Ret tt)).
    rewrite run_bind. simpl.
    apply (createGroupChat_shape env history s name userIds).
  - change (perform (OnChatEvent chatId payload))
      with (onMessageInsert chatId payload).
    by rewrite onMessageInsert_run.
  - change (perform (OnChatsEvent payload)) with fetchChats.
    by rewrite fetchChats_run; destruct (respond env history SelectChats).
Qed.

(** X15: which action may change which field of the store.  [chats] and
    [loading] change only in [fetchChats] (called directly or by the
    chat-list subscription); [activeChat] only in [setActiveChat], so a
    refresh never reconciles it with the new collection; [messages] only in
    [fetchMessages] and in the handler of a chat subscription;
    [typingUsers] only in the two typing actions; and [error] is left alone
    by [setActiveChat], the create actions, the chat subscription handler
    and the typing actions. *)
Theorem store_frame env history a s :
  let s' := final (run env history (perform a) s) in
  match a with
  | DoFetchChats | OnChatsEvent _ => True
  | _ => chats s' = chats s ∧ loading s' = loading s
  end
  ∧ match a with
    | DoSetActiveChat _ => True
    | _ => activeChat s' = activeChat s
    end
  ∧ match a with
    | DoFetchMessages _ | OnChatEvent _ _ => True
    | _ => messages s' = messages s
    end
  ∧ match a with
    | DoTyping _ => True
    | _ => typingUsers s' = typingUsers s
    end
  ∧ match a with
    | DoSetActiveChat _ | DoCreateDirectChat _ | DoCreateGroupChat _ _
    | OnChatEvent _ _ | DoTyping _ => error s' = error s
    | _ => True
    end.
Proof.
  intros s'. subst s'. rewrite perform_final.
  destruct a as [| chat | | chatId | chatId text replyTo | userId
                 | name userIds | chatId payload | payload | [c u | c u]];
    repeat split;
    repeat match goal with
           | |- context [match ?r with _ => _ end] => destruct r
           end;
    reflexivity.
Qed.

(** One action keeps [loading] down and the typing pairs apart. *)
Lemma perform_invariant env history a s :
  loading s = false →
  at_most_one_per_pair (typingUsers s) →
  loading (final (run env history (perform a) s)) = false
  ∧ at_most_one_per_pair (typingUsers (final (run env history (perform a) s))).
Proof.
  intros Hloading Hpairs.
  destruct a as [| chat | | chatId | chatId text replyTo | userId
                 | name userIds | chatId payload | payload | op].
  10: { split;
          [by destruct op | by apply (typing_action_at_most_one env history)]. }
  all: rewrite perform_final;
    repeat match goal with
           | |- context [match ?r with _ => _ end] => destruct r
           end;
    by split.
Qed.

(** X16: in a store where [loading] is down and no typing pair has two
    entries, as in the initial store, every session of actions and event
    deliveries, whatever the backend answers, ends with [loading] down again
    (no completed action leaves the flag raised) and with at most one
    typing entry per pair. *)
Theorem session_invariants env history acts s :
  loading s = false →
  at_most_one_per_pair (typingUsers s) →
  let s' := final (run env history (session acts) s) in
  loading s' = false ∧ at_most_one_per_pair (typingUsers s').
Proof.
  revert history s. induction acts as [| a rest IH]; intros history s Hl Hp.
  - by split.
  - intros s'. subst s'. rewrite session_cons. cbn [final].
    destruct (perform_invariant env history a s Hl Hp) as [Hl' Hp'].
    by apply IH.
Qed.

(** Two refreshes that fail, and u1 typing in c1 twice. *)
Lemma session_invariants_witness :
  let env := sample_env (Some "u1") [] (all_fail "offline") in
  let s' := final (run env []
                     (session [DoFetchChats; DoTyping (AddTyping "c1" "u1");
                               OnChatsEvent (mkPayload "c1");
                               DoTyping (AddTyping "c1" "u1")])
                     initialState) in
  loading s' = false ∧ at_most_one_per_pair (typingUsers s').
Proof.
  intros env.
  exact (session_invariants env [] _ initialState eq_refl
           initialState_at_most_one).
Defined.

(** Without a signed-in user one action writes nothing to the backend. *)
Lemma perform_no_write env history a s :
  (∀ h, respond env h AuthGetUser = None) →
  filter is_write (issued (run env history (perform a) s)) = [].
Proof.
  intros Hnobody.
  destruct a as [| chat | | chatId | chatId text replyTo | userId
                 | name userIds | chatId payload | payload | [c u | c u]];
    try reflexivity.
  - change (perform DoFetchChats) with fetchChats.
    by rewrite fetchChats_run; destruct (respond env history SelectChats).
  - change (perform (DoFetchMessages chatId)) with (fetchMessages chatId).
    by rewrite fetchMessages_run; destruct (respond env history _).
  - change (perform (DoSendMessage chatId text replyTo))
      with (sendMessage chatId text replyTo).
    by rewrite sendMessage_run, Hnobody.
  - change (perform (DoCreateDirectChat userId))
      with (bind (createDirectChat userId) (λ _, Ret tt)).
    by rewrite run_bind, createDirectChat_run, Hnobody.
  - change (perform (DoCreateGroupChat name userIds))
      with (bind (createGroupChat name userIds) (λ _, Ret tt)).
    by rewrite run_bind, createGroupChat_run, Hnobody.
  - change (perform (OnChatEvent chatId payload))
      with (onMessageInsert chatId payload).
    by rewrite onMessageInsert_run.
  - change (perform (OnChatsEvent payload)) with fetchChats.
    by rewrite fetchChats_run; destruct (respond env history SelectChats).
Qed.

(** X17: as long as nobody is signed in, no session of actions and event
    deliveries sends an insert or an update to the backend: every writing
    action stops at its identity lookup.  The reads are not guarded that
    way: [fetchChats], [fetchMessages] and the handler of a chat
    subscription send their select without an identity lookup. *)
Theorem session_no_write_unauthenticated env history acts s :
  (∀ h, respond env h AuthGetUser = None) →
  filter is_write (issued (run env history (session acts) s)) = []
  ∧ issued (run env history fetchChats s) = [SelectChats]
  ∧ (∀ chatId,
       issued (run env history (fetchMessages chatId) s)
         = [SelectMessages chatId])
  ∧ (∀ chatId payload,
       issued (run env history (onMessageInsert chatId payload) s)
         = [SelectMessageById (new_id payload)]).
Proof.
  intros Hnobody. split.
  - revert history s. induction acts as [| a rest IH]; intros history s.
    + reflexivity.
    + rewrite session_cons. cbn [issued].
      by rewrite filter_app, perform_no_write, IH.
  - split; [| split].
    + by rewrite fetchChats_run; destruct (respond env history SelectChats).
    + intros chatId.
      by rewrite fetchMessages_run; destruct (respond env history _).
    + intros chatId payload. by rewrite onMessageInsert_run.
Qed.

(** Nobody is signed in; a send, two creations, a refresh and a load. *)
Lemma session_no_write_unauthenticated_witness :
  let env := sample_env None [] (all_succeed [] [] "c9") in
  issued (run env []
            (session [DoSendMessage "c1" "hello" None;
                      DoCreateDirectChat "u2";
                      DoCreateGroupChat "Team" ["u2"; "u3"];
                      DoFetchChats; DoFetchMessages "c1"])
            initialState)
    = [AuthGetUser; AuthGetUser; AuthGetUser; SelectChats;
       SelectMessages "c1"]
  ∧ filter is_write
      (issued (run env []
                 (session [DoSendMessage "c1" "hello" None;
                           DoCreateDirectChat "u2";
                           DoCreateGroupChat "Team" ["u2"; "u3"];
                           DoFetchChats; DoFetchMessages "c1"])
                 initialState)) = [].
Proof.
  intros env. split; [reflexivity |].
  apply (session_no_write_unauthenticated env [] _ initialState).
  reflexivity.
Defined.
